(** * StarSurf: a tabbed browser shell over a toolkit web view

    Shallow embedding of [src/starsurf.py].  The program is a thin layer of
    slots over two toolkit classes, [QTabWidget] and [QWebEngineView]; the
    slots of [MainWindow] and [BrowserTab] are embedded line by line, the
    toolkit classes they call are modelled next to them (module [QUrl],
    module [QTabWidget], module [QLineEdit]).

    Python objects are references: a [BrowserTab] is an object identity
    ([obj]) and its engine-side state lives in a store indexed by identity,
    so that the tab widget, the slots and the engine all see one object.
    A Python exception is a result of its own ([Raise]), carrying the state
    reached when it was raised. *)

From Stdlib Require Import ZArith Lia Ascii String.
From stdpp Require Import base decidable option list functions strings.

Local Open Scope string_scope.
Local Open Scope Z_scope.

(** ** Python strings *)

(** [sub in s] of Python for strings: [sub] occurs in [s] as a substring. *)
Fixpoint str_in (sub s : string) : bool :=
  match s with
  | EmptyString => String.prefix sub EmptyString
  | String _ s' => String.prefix sub s || str_in sub s'
  end.

(** ** Toolkit model: QUrl *)

Module QUrl.

(** A [QUrl] built from a string ([QUrl(text)], [q.setUrl(text)]).  The
    model keeps the text the URL was built from. *)
Record t : Type := mk { text : string }.

(** The toolkit's normalisation of the text of a URL (encoding, case of
    the scheme and host, the empty string for an invalid URL) is not under
    src/ and is not modelled.  [normalised] stands for it and is sealed:
    no proof sees more of it than its type, so that what is proved below
    holds for whatever string the toolkit returns. *)
Definition normalised : string -> string.
Proof. exact (fun s => s). Qed.

(** [q.toString()]: the normalised URL. *)
Definition toString (q : t) : string := normalised (text q).

Definition isAsciiLower (c : ascii) : bool :=
  let n := nat_of_ascii c in (97 <=? n)%nat && (n <=? 122)%nat.
Definition isAsciiUpper (c : ascii) : bool :=
  let n := nat_of_ascii c in (65 <=? n)%nat && (n <=? 90)%nat.
Definition isAsciiDigit (c : ascii) : bool :=
  let n := nat_of_ascii c in (48 <=? n)%nat && (n <=? 57)%nat.

Definition toLower (c : ascii) : ascii :=
  if isAsciiUpper c then ascii_of_nat (nat_of_ascii c + 32) else c.

(** The text before the first [":"], when that colon comes before any
    ["?"] and ["#"]: the scheme candidate of the toolkit's parser. *)
Fixpoint before_colon (s : string) : option string :=
  match s with
  | EmptyString => None
  | String c s' =>
      if Ascii.eqb c "#" then None
      else if Ascii.eqb c "?" then None
      else if Ascii.eqb c ":" then Some EmptyString
      else String c <$> before_colon s'
  end.

(** RFC 3986: scheme = ALPHA *( ALPHA / DIGIT / "+" / "-" / "." ). *)
Fixpoint scheme_tail_ok (s : string) : bool :=
  match s with
  | EmptyString => true
  | String c s' =>
      (isAsciiLower c || isAsciiUpper c || isAsciiDigit c
       || Ascii.eqb c "+" || Ascii.eqb c "-" || Ascii.eqb c ".")
      && scheme_tail_ok s'
  end.

Definition scheme_ok (s : string) : bool :=
  match s with
  | EmptyString => false
  | String c s' => (isAsciiLower c || isAsciiUpper c) && scheme_tail_ok s'
  end.

Fixpoint lowercase (s : string) : string :=
  match s with
  | EmptyString => EmptyString
  | String c s' => String (toLower c) (lowercase s')
  end.

(** [q.scheme()]: the lower-cased scheme, or the empty string when the
    text has none. *)
Definition scheme (q : t) : string :=
  match before_colon (text q) with
  | Some s => if scheme_ok s then lowercase s else ""
  | None => ""
  end.

End QUrl.

(** ** Object identities and the per-tab engine state *)

(** Identity of a [BrowserTab] object. *)
Definition obj : Type := nat.

(** What the shell reads from a [BrowserTab] (a [QWebEngineView]):
    [browser.url()] and [browser.title()]. *)
Record BrowserTab : Type := mkBrowserTab {
  url : QUrl.t;
  title : string
}.

(** ** Toolkit model: QLineEdit *)

Module QLineEdit.

Record t : Type := mk { text : string; cursorPosition : Z }.

(** [maxLength()]: the toolkit's default, which the program leaves. *)
Definition maxLength : N := 32767%N.

(** The first [n] characters of [s]. *)
Fixpoint truncate (n : N) (s : string) : string :=
  match s with
  | EmptyString => EmptyString
  | String c s' => if (n =? 0)%N then EmptyString else String c (truncate (N.pred n) s')
  end.

(** The text a line edit holds after [setText(s)]: [s], cut at
    [maxLength()]. *)
Definition shown (s : string) : string := truncate maxLength s.

(** [setText] replaces the text, cut at [maxLength()], and leaves the
    cursor at its end. *)
Definition setText (s : string) (e : t) : t :=
  mk (shown s) (Z.of_nat (String.length (shown s))).

Definition setCursorPosition (p : Z) (e : t) : t :=
  mk (text e) (Z.max 0 (Z.min p (Z.of_nat (String.length (text e))))).

End QLineEdit.

(** ** Toolkit model: QTabWidget *)

Module QTabWidget.

(** The pages in display order, each with its label, and the index of the
    current page ([-1] when there is none). *)
Record t : Type := mk { pages : list (obj * string); currentIndex : Z }.

Definition count (w : t) : Z := Z.of_nat (List.length (pages w)).

Definition validIndex (w : t) (i : Z) : bool := (0 <=? i) && (i <? count w).

(** [widget(index)]: the page at [index], [None] out of range. *)
Definition widget (w : t) (i : Z) : option obj :=
  if validIndex w i then fst <$> pages w !! Z.to_nat i else None.

Definition currentWidget (w : t) : option obj := widget w (currentIndex w).

Fixpoint index_from (b : obj) (l : list (obj * string)) (i : Z) : Z :=
  match l with
  | [] => -1
  | p :: l' => if decide (p.1 = b) then i else index_from b l' (i + 1)
  end.

(** [indexOf(w)]: the index of the page [w], [-1] when it is no page. *)
Definition indexOf (w : t) (b : obj) : Z := index_from b (pages w) 0.

Definition tabText (w : t) (i : Z) : string :=
  if validIndex w i then default "" (snd <$> pages w !! Z.to_nat i) else "".

Definition setTabText (w : t) (i : Z) (label : string) : t :=
  if validIndex w i
  then mk (alter (λ p, (p.1, label)) (Z.to_nat i) (pages w)) (currentIndex w)
  else w.

(** Modelled from the spec: the toolkit's [QTabWidget.addTab] is not under
    src/.  The page is appended after the existing ones (spec: the new tab
    is appended to the tabs) and its index is returned.  The first page of
    an empty widget becomes the current one.  The third component is the
    argument of the [currentChanged] signal when the call emits it. *)
Definition addTab (w : t) (b : obj) (label : string) : t * Z * option Z :=
  let i := count w in
  let pages' := (pages w ++ [(b, label)])%list in
  if i =? 0 then (mk pages' 0, i, Some 0)
  else (mk pages' (currentIndex w), i, None).

(** Modelled from the spec: the toolkit's [QTabWidget.setCurrentIndex] is
    not under src/.  An index out of range changes nothing (spec: switching
    to an index out of range is a no-op); an index in range becomes the
    current one, and [currentChanged] is emitted when that changes the
    current index. *)
Definition setCurrentIndex (w : t) (i : Z) : t * option Z :=
  if validIndex w i && negb (i =? currentIndex w)
  then (mk (pages w) i, Some i)
  else (w, None).

(** Modelled from the spec: the toolkit's [QTabWidget.removeTab] is not
    under src/.  The spec gives its policy for the current index: when
    the removed tab was the active one, the active index is clamped to
    the nearest remaining index (the toolkit's default, select the tab
    to the right); a tab removed before the active one shifts the active
    index down by one; an index out of range removes nothing. *)
Definition removeTab (w : t) (i : Z) : t * option Z :=
  if validIndex w i then
    let pages' := delete (Z.to_nat i) (pages w) in
    let n := Z.of_nat (List.length pages') in
    if i =? currentIndex w then
      if n =? 0 then (mk pages' (-1), Some (-1))
      else let c := Z.max 0 (Z.min i (n - 1)) in (mk pages' c, Some c)
    else if i <? currentIndex w then
      let c := currentIndex w - 1 in
      if (0 <=? c) && (c <? n) then (mk pages' c, Some c)
      else (mk pages' (currentIndex w), None)
    else (mk pages' (currentIndex w), None)
  else (w, None).

End QTabWidget.

(** ** Results of Python calls *)

Inductive PyExn : Type :=
| AttributeError.

(** A call either returns a value or raises; both carry the state reached. *)
Inductive Result (S A : Type) : Type :=
| Return (a : A) (s : S)
| Raise (e : PyExn) (s : S).
Arguments Return {S A} a s.
Arguments Raise {S A} e s.

Definition state_of {S A : Type} (r : Result S A) : S :=
  match r with
  | Return _ s => s
  | Raise _ s => s
  end.

(** ** The main window *)

Record MainWindow : Type := mkMainWindow {
  windowTitle : string;
  tabs : QTabWidget.t;
  url_bar : QLineEdit.t;
  (** engine-side state of every [BrowserTab] object *)
  browsers : obj -> BrowserTab;
  (** identity of the next object to be created *)
  next_obj : obj;
  (** objects handed to [deleteLater] *)
  deleteLater : list obj
}.

Definition M (A : Type) : Type := MainWindow -> Result MainWindow A.

#[global] Instance M_ret : MRet M := λ A a st, Return a st.
#[global] Instance M_bind : MBind M := λ A B f c st,
  match c st with
  | Return a st' => f a st'
  | Raise e st' => Raise e st'
  end.

Definition get : M MainWindow := λ st, Return st st.
Definition modify (f : MainWindow -> MainWindow) : M unit := λ st, Return tt (f st).
Definition raise {A : Type} (e : PyExn) : M A := λ st, Raise e st.

Definition setWindowTitle (s : string) (st : MainWindow) : MainWindow :=
  mkMainWindow s (tabs st) (url_bar st) (browsers st) (next_obj st) (deleteLater st).
Definition set_tabs (w : QTabWidget.t) (st : MainWindow) : MainWindow :=
  mkMainWindow (windowTitle st) w (url_bar st) (browsers st) (next_obj st) (deleteLater st).
Definition set_url_bar (e : QLineEdit.t) (st : MainWindow) : MainWindow :=
  mkMainWindow (windowTitle st) (tabs st) e (browsers st) (next_obj st) (deleteLater st).
Definition set_browsers (h : obj -> BrowserTab) (st : MainWindow) : MainWindow :=
  mkMainWindow (windowTitle st) (tabs st) (url_bar st) h (next_obj st) (deleteLater st).

(** --- Configuration --- *)
Definition DEFAULT_URL : string := "https://www.google.com".
Definition HOME_URL : string := "https://www.google.com".

(** [BrowserTab(parent)]: a new view, with an empty URL and title. *)
Definition BrowserTab__init__ : M obj := λ st,
  let self := next_obj st in
  Return self
    (mkMainWindow (windowTitle st) (tabs st) (url_bar st)
       (<[self := mkBrowserTab (QUrl.mk "") ""]> (browsers st))
       (S self) (deleteLater st)).

(** Modelled from the spec: the engine behind [browser.setUrl(q)] is not
    under src/.  The view's URL becomes [q] and the engine starts loading
    it; the call does not wait, and what the engine reports arrives later
    as separate [urlChanged] and [titleChanged] events. *)
Definition setUrl (browser : obj) (q : QUrl.t) : M unit :=
  modify (λ st,
    set_browsers (<[browser := mkBrowserTab q (title (browsers st browser))]> (browsers st)) st).

(** [widget.deleteLater()] *)
Definition widget_deleteLater (widget : obj) : M unit :=
  modify (λ st,
    mkMainWindow (windowTitle st) (tabs st) (url_bar st) (browsers st)
      (next_obj st) (widget :: deleteLater st)).

(** Slot of [titleChanged]: updates the tab title when the page title
    changes. *)
Definition update_tab_title (title : string) (browser : obj) : M unit :=
  st ← get;
  let index := QTabWidget.indexOf (tabs st) browser in
  if decide (index ≠ -1) then
    modify (set_tabs (QTabWidget.setTabText (tabs st) index title));;
    st ← get;
    if decide (Some browser = QTabWidget.currentWidget (tabs st))
    then modify (setWindowTitle ("Python Browser - " +:+ title))
    else mret tt
  else mret tt.

(** Slot of [urlChanged]: updates the address bar to show the current
    page's URL.  [browser] defaults to [None] in the source. *)
Definition update_url_bar (q : QUrl.t) (browser : option obj) : M unit :=
  st ← get;
  if decide (browser ≠ QTabWidget.currentWidget (tabs st)) then mret tt
  else
    modify (λ st, set_url_bar (QLineEdit.setText (QUrl.toString q) (url_bar st)) st);;
    modify (λ st, set_url_bar (QLineEdit.setCursorPosition 0 (url_bar st)) st).

(** Slot of [tabs.currentChanged]. *)
Definition update_ui_on_tab_change (index : Z) : M unit :=
  if decide (index ≠ -1) then
    st ← get;
    match QTabWidget.widget (tabs st) index with
    | None => raise AttributeError
    | Some current_browser =>
        update_url_bar (url (browsers st current_browser)) (Some current_browser);;
        st ← get;
        update_tab_title (title (browsers st current_browser)) current_browser
    end
  else mret tt.

(** [self.tabs.currentChanged.connect(self.update_ui_on_tab_change)]: a
    call on [self.tabs] that emits the signal runs the slot before it
    returns. *)
Definition emit_currentChanged (sig : option Z) : M unit :=
  match sig with
  | Some index => update_ui_on_tab_change index
  | None => mret tt
  end.

Definition tabs_addTab (browser : obj) (label : string) : M Z :=
  st ← get;
  let '(w, i, sig) := QTabWidget.addTab (tabs st) browser label in
  modify (set_tabs w);;
  emit_currentChanged sig;;
  mret i.

Definition tabs_setCurrentIndex (index : Z) : M unit :=
  st ← get;
  let '(w, sig) := QTabWidget.setCurrentIndex (tabs st) index in
  modify (set_tabs w);;
  emit_currentChanged sig.

Definition tabs_removeTab (index : Z) : M unit :=
  st ← get;
  let '(w, sig) := QTabWidget.removeTab (tabs st) index in
  modify (set_tabs w);;
  emit_currentChanged sig.

(** Adds a new tab to the QTabWidget. *)
Definition add_new_tab (browser : obj) (url : option QUrl.t) (label : string) : M unit :=
  let url := match url with None => QUrl.mk DEFAULT_URL | Some url => url end in
  setUrl browser url;;
  i ← tabs_addTab browser label;
  tabs_setCurrentIndex i.

(** Closes the tab at the given index. *)
Definition close_tab (index : Z) : M unit :=
  st ← get;
  if QTabWidget.count (tabs st) <? 2 then mret tt
  else
    match QTabWidget.widget (tabs st) index with
    | None => raise AttributeError
    | Some widget =>
        widget_deleteLater widget;;
        tabs_removeTab index
    end.

(** Lines 123 to 130 of [navigate_to_url]: the URL built from the text of
    the address bar. *)
Definition typed_url (url_text : string) : QUrl.t :=
  let q := QUrl.mk url_text in
  if String.eqb (QUrl.scheme q) "" then
    if str_in "." url_text
    then QUrl.mk ("https://" +:+ url_text)
    else QUrl.mk ("https://www.google.com/search?q=" +:+ url_text)
  else q.

(** Loads the URL typed in the address bar. *)
Definition navigate_to_url : M unit :=
  st ← get;
  let q := typed_url (QLineEdit.text (url_bar st)) in
  match QTabWidget.currentWidget (tabs st) with
  | None => raise AttributeError
  | Some current => setUrl current q
  end.

(** Loads the home page in the current tab. *)
Definition navigate_home : M unit :=
  st ← get;
  match QTabWidget.currentWidget (tabs st) with
  | None => raise AttributeError
  | Some current => setUrl current (QUrl.mk HOME_URL)
  end.

(** The kinds of window the engine can ask for. *)
Inductive WebWindowType : Type :=
| WebBrowserWindow
| WebBrowserTab
| WebDialog
| WebBrowserBackgroundTab.

#[global] Instance WebWindowType_eq_dec : EqDecision WebWindowType.
Proof. solve_decision. Defined.

(** The class attribute [QWebEngineView.WebBrowserWindow] that line 25
    reads.  The toolkit declares the kinds of window on [QWebEnginePage];
    the class [QWebEngineView] has no attribute of that name, and reading
    it raises [AttributeError]. *)
Definition QWebEngineView_WebBrowserWindow : option WebWindowType := None.

(** Lines 26 to 28 of [createWindow], the branch taken when the comparison
    of line 25 holds: a new view, opened as a tab and returned. *)
Definition createWindow_new_tab : M (option obj) :=
  new_tab ← BrowserTab__init__;
  add_new_tab new_tab (Some (QUrl.mk DEFAULT_URL)) "New Tab";;
  mret (Some new_tab).

(** [BrowserTab.createWindow]: handles new windows by opening a new tab.
    The comparison of line 25 first reads the class attribute.
    [self.parent_window] is the main window; the inherited [createWindow]
    returns no view. *)
Definition createWindow (self : obj) (type : WebWindowType) : M (option obj) :=
  match QWebEngineView_WebBrowserWindow with
  | None => raise AttributeError
  | Some kind =>
      if decide (type = kind) then createWindow_new_tab
      else mret None
  end.

(** A new-window request of the engine: the page shown by [parent] asks for
    a window of kind [type] to show [requested].  The engine calls
    [createWindow] of the parent view with the kind alone. *)
Definition new_window_requested (parent : obj) (type : WebWindowType)
    (requested : QUrl.t) : M (option obj) :=
  createWindow parent type.

(** The window before [MainWindow.__init__] has run. *)
Definition QMainWindow__init__ : MainWindow :=
  mkMainWindow "" (QTabWidget.mk [] (-1)) (QLineEdit.mk "" 0)
    (λ _, mkBrowserTab (QUrl.mk "") "") 0%nat [].

(** [MainWindow.__init__]: the title, the empty tab widget, the address bar
    and the initial tab. *)
Definition MainWindow__init__ : M unit :=
  modify (setWindowTitle "Python Browser");;
  modify (set_tabs (QTabWidget.mk [] (-1)));;
  modify (set_url_bar (QLineEdit.mk "" 0));;
  browser ← BrowserTab__init__;
  add_new_tab browser (Some (QUrl.mk DEFAULT_URL)) "New Tab".

(** Click on the new-tab button:
    [lambda: self.add_new_tab(BrowserTab(self))]. *)
Definition new_tab_btn_clicked : M unit :=
  browser ← BrowserTab__init__;
  add_new_tab browser None "New Tab".

(** The window when the event loop starts. *)
Definition startup : MainWindow := state_of (MainWindow__init__ QMainWindow__init__).

(** ** Sequences of tab operations *)

(** The two tab operations of the shell: opening a tab on [url] (every
    caller of [add_new_tab] passes it a new [BrowserTab]) and closing the
    tab at [index]. *)
Inductive TabOp : Type :=
| addTab (url : option QUrl.t)
| closeTab (index : Z).

Definition do_op (op : TabOp) : M unit :=
  match op with
  | addTab url =>
      browser ← BrowserTab__init__;
      add_new_tab browser url "New Tab"
  | closeTab index => close_tab index
  end.

(** The event loop runs the operations one after the other; an operation
    that raises ends there and the loop goes on from the state reached. *)
Definition run (ops : list TabOp) (st : MainWindow) : MainWindow :=
  fold_left (λ st op, state_of (do_op op st)) ops st.

(** The window with a second tab, opened with the new-tab button. *)
Definition two_tabs : MainWindow := state_of (new_tab_btn_clicked startup).

(** The user edits the address bar. *)
Definition url_bar_edited (s : string) (st : MainWindow) : MainWindow :=
  set_url_bar (QLineEdit.setText s (url_bar st)) st.

(** The text has a ["."] character. *)
Definition contains_dot (s : string) : Prop :=
  exists pre post, s = pre +:+ "." +:+ post.

(** What the window shows of a tab: the text of the address bar, the
    window title, and the label of the tab at [index]. *)
Definition shown_url (st : MainWindow) : string := QLineEdit.text (url_bar st).
Definition shown_label (st : MainWindow) (index : Z) : string :=
  QTabWidget.tabText (tabs st) index.

(** The window shows the tab [browser]: its URL in the address bar, its
    title in the window title and as the label of its tab. *)
Definition shows_tab (st : MainWindow) (browser : obj) : Prop :=
  shown_url st = QLineEdit.shown (QUrl.toString (url (browsers st browser)))
  /\ windowTitle st = "Python Browser - " +:+ title (browsers st browser)
  /\ shown_label st (QTabWidget.indexOf (tabs st) browser) = title (browsers st browser).

(** ** Events of the running window *)

(** Modelled from the spec: the engine is not under src/.  When the page of
    a view gets a new URL, [url()] of the view becomes that URL and
    [urlChanged] is emitted; the connection made in [add_new_tab] (line 96)
    calls [update_url_bar] with the view.  A view that was never a tab has
    no connection, and the slot does nothing for it. *)
Definition urlChanged (browser : obj) (q : QUrl.t) : M unit :=
  modify (λ st,
    set_browsers (<[browser := mkBrowserTab q (title (browsers st browser))]> (browsers st)) st);;
  update_url_bar q (Some browser).

(** Modelled from the spec: as [urlChanged], for the title of the page
    and the connection of line 97 to [update_tab_title]. *)
Definition titleChanged (browser : obj) (new_title : string) : M unit :=
  modify (λ st,
    set_browsers (<[browser := mkBrowserTab (url (browsers st browser)) new_title]> (browsers st)) st);;
  update_tab_title new_title browser.

(** What the event loop delivers to the window: the clicks and keys wired
    in [MainWindow.__init__], the selection of a tab in the tab bar, and
    the signals and requests of the engine. *)
Inductive Event : Type :=
| NewTabClicked
| TabCloseRequested (index : Z)
| TabSelected (index : Z)
| UrlBarEdited (text : string)
| ReturnPressed
| HomeClicked
| UrlChanged (browser : obj) (q : QUrl.t)
| TitleChanged (browser : obj) (new_title : string)
| NewWindowRequested (parent : obj) (type : WebWindowType) (requested : QUrl.t).

Definition handle (e : Event) : M unit :=
  match e with
  | NewTabClicked => new_tab_btn_clicked
  | TabCloseRequested index => close_tab index
  | TabSelected index => tabs_setCurrentIndex index
  | UrlBarEdited text => modify (url_bar_edited text)
  | ReturnPressed => navigate_to_url
  | HomeClicked => navigate_home
  | UrlChanged browser q => urlChanged browser q
  | TitleChanged browser new_title => titleChanged browser new_title
  | NewWindowRequested parent type requested =>
      new_window_requested parent type requested;; mret tt
  end.

(** The event loop: a handler that raises ends there, and the loop goes on
    from the state reached. *)
Definition run_events (events : list Event) (st : MainWindow) : MainWindow :=
  fold_left (λ st e, state_of (handle e st)) events st.

(** The events whose handler returns in the running window: a request to
    close a tab the tab bar shows, and every other event but the request
    for a new window, whose handler [createWindow] raises. *)
Definition returns_on (st : MainWindow) (e : Event) : Prop :=
  match e with
  | TabCloseRequested index => 0 <= index < QTabWidget.count (tabs st)
  | NewWindowRequested _ _ _ => False
  | _ => True
  end.

(** The events that come from a page or from the address bar and the home
    button, as opposed to the ones that open, close or select a tab. *)
Definition page_event (e : Event) : bool :=
  match e with
  | UrlBarEdited _ | ReturnPressed | HomeClicked
  | UrlChanged _ _ | TitleChanged _ _ => true
  | _ => false
  end.

(** ** Invariants of the running window *)

(** The current index points at a tab. *)
Definition current_valid (st : MainWindow) : Prop :=
  0 <= QTabWidget.currentIndex (tabs st) < QTabWidget.count (tabs st).

(** The tabs are distinct objects that have been created, and no tab is
    in the deletion queue. *)
Definition tabs_distinct (st : MainWindow) : Prop :=
  NoDup (fst <$> QTabWidget.pages (tabs st))
  /\ (forall b, b ∈ fst <$> QTabWidget.pages (tabs st) -> (b < next_obj st)%nat)
  /\ (forall b, b ∈ deleteLater st ->
        (b < next_obj st)%nat /\ b ∉ fst <$> QTabWidget.pages (tabs st)).

(** Every tab is labelled with the title of its page, and the window title
    carries the title of the current page. *)
Definition titles_shown (st : MainWindow) : Prop :=
  Forall (λ p, p.2 = title (browsers st p.1)) (QTabWidget.pages (tabs st))
  /\ (forall b, QTabWidget.currentWidget (tabs st) = Some b ->
        windowTitle st = "Python Browser - " +:+ title (browsers st b)).

(** The state the [currentChanged] slot leaves when it is called with the
    index of the current tab [browser]. *)
Definition refreshed (browser : obj) (st : MainWindow) : MainWindow :=
  setWindowTitle ("Python Browser - " +:+ title (browsers st browser))
    (set_tabs (QTabWidget.setTabText (tabs st)
                 (QTabWidget.indexOf (tabs st) browser) (title (browsers st browser)))
       (set_url_bar
          (QLineEdit.mk (QLineEdit.shown (QUrl.toString (url (browsers st browser)))) 0)
          st)).

(** The three invariants together. *)
Definition window_ok (st : MainWindow) : Prop :=
  current_valid st /\ tabs_distinct st /\ titles_shown st.

(** The window with the tab [widget] at [index] taken out and queued for
    deletion, and [c] as the current index. *)
Definition closed (index c : Z) (widget : obj) (st : MainWindow) : MainWindow :=
  mkMainWindow (windowTitle st)
    (QTabWidget.mk (delete (Z.to_nat index) (QTabWidget.pages (tabs st))) c)
    (url_bar st) (browsers st) (next_obj st) (widget :: deleteLater st).

(** The window with the tab [browser] appended, current, and asked to load
    [q]. *)
Definition opened (browser : obj) (q : QUrl.t) (label : string) (st : MainWindow)
  : MainWindow :=
  set_tabs
    (QTabWidget.mk (QTabWidget.pages (tabs st) ++ [(browser, label)])%list
                   (QTabWidget.count (tabs st)))
    (set_browsers (<[browser := mkBrowserTab q (title (browsers st browser))]> (browsers st)) st).

(** The window after [BrowserTab(self)] has created a view. *)
Definition created (st : MainWindow) : MainWindow :=
  mkMainWindow (windowTitle st) (tabs st) (url_bar st)
    (<[next_obj st := mkBrowserTab (QUrl.mk "") ""]> (browsers st))
    (S (next_obj st)) (deleteLater st).

(** ** Proof tools *)

Ltac unfold_M :=
  unfold mbind, M_bind, mret, M_ret, get, modify, raise in *.

(** What the display slots leave alone: the pages and their order, the
    current index, the engine state, the object counter and the deletion
    queue. *)
Definition same_tabs (st st' : MainWindow) : Prop :=
  fst <$> QTabWidget.pages (tabs st') = fst <$> QTabWidget.pages (tabs st)
  /\ QTabWidget.currentIndex (tabs st') = QTabWidget.currentIndex (tabs st)
  /\ browsers st' = browsers st
  /\ next_obj st' = next_obj st
  /\ deleteLater st' = deleteLater st.

(** * Facts about the toolkit model *)

Module QTabWidgetFacts.
Import QTabWidget.

Lemma count_nonneg w : 0 <= count w.
Proof. unfold count. lia. Qed.

Lemma validIndex_spec w i : validIndex w i = true <-> 0 <= i < count w.
Proof. unfold validIndex. rewrite andb_true_iff, Z.leb_le, Z.ltb_lt. tauto. Qed.

Lemma widget_fmap w i :
  widget w i = if validIndex w i then (fst <$> pages w) !! Z.to_nat i else None.
Proof. unfold widget. destruct (validIndex w i); [|done]. by rewrite list_lookup_fmap. Qed.

(** The pages alone decide [widget]: labels play no part. *)
Lemma widget_ext w1 w2 i :
  fst <$> pages w1 = fst <$> pages w2 -> widget w1 i = widget w2 i.
Proof.
  intros E. rewrite !widget_fmap. unfold validIndex, count.
  rewrite <- (length_fmap fst (pages w1)), <- (length_fmap fst (pages w2)), E.
  done.
Qed.

Lemma widget_in_range w i : 0 <= i < count w -> exists b, widget w i = Some b.
Proof.
  intros H. unfold widget. rewrite (proj2 (validIndex_spec w i) H).
  destruct (lookup_lt_is_Some_2 (pages w) (Z.to_nat i)) as [p Hp].
  { unfold count in H. lia. }
  exists p.1. by rewrite Hp.
Qed.

Lemma widget_out_of_range w i : i < 0 \/ count w <= i -> widget w i = None.
Proof.
  intros H. unfold widget.
  destruct (validIndex w i) eqn:E; [|done].
  apply validIndex_spec in E. lia.
Qed.

Lemma widget_Some_range w i b : widget w i = Some b -> 0 <= i < count w.
Proof.
  unfold widget. destruct (validIndex w i) eqn:E; [|done].
  intros _. by apply validIndex_spec.
Qed.

Lemma fst_alter_label (l : list (obj * string)) n label :
  fst <$> alter (λ p, (p.1, label)) n l = fst <$> l.
Proof.
  revert n. induction l as [|p l IH]; intros [|n]; simpl; try done.
  f_equal. apply IH.
Qed.

Lemma setTabText_pages w i label :
  fst <$> pages (setTabText w i label) = fst <$> pages w.
Proof.
  unfold setTabText. destruct (validIndex w i); [|done].
  apply fst_alter_label.
Qed.

Lemma setTabText_currentIndex w i label :
  currentIndex (setTabText w i label) = currentIndex w.
Proof. unfold setTabText. by destruct (validIndex w i). Qed.

Lemma setTabText_count w i label : count (setTabText w i label) = count w.
Proof.
  unfold count.
  rewrite <- (length_fmap fst (pages (setTabText w i label))), setTabText_pages.
  by rewrite length_fmap.
Qed.

Lemma setTabText_currentWidget w i label :
  currentWidget (setTabText w i label) = currentWidget w.
Proof.
  unfold currentWidget. rewrite setTabText_currentIndex.
  apply widget_ext, setTabText_pages.
Qed.

Lemma tabText_setTabText w i label :
  0 <= i < count w -> tabText (setTabText w i label) i = label.
Proof.
  intros H. unfold tabText.
  assert (V : validIndex (setTabText w i label) i = true).
  { apply validIndex_spec. by rewrite setTabText_count. }
  rewrite V. unfold setTabText. rewrite (proj2 (validIndex_spec w i) H). simpl.
  destruct (lookup_lt_is_Some_2 (pages w) (Z.to_nat i)) as [p Hp].
  { unfold count in H. lia. }
  by rewrite list_lookup_alter_eq, Hp.
Qed.

Lemma tabText_setTabText_ne w i j label :
  i <> j -> tabText (setTabText w i label) j = tabText w j.
Proof.
  intros Hne. unfold tabText.
  assert (V : validIndex (setTabText w i label) j = validIndex w j).
  { unfold validIndex. by rewrite setTabText_count. }
  rewrite V. destruct (validIndex w j) eqn:Vj; [|done].
  unfold setTabText. destruct (validIndex w i) eqn:Vi; [|done]. simpl.
  apply validIndex_spec in Vi, Vj.
  rewrite list_lookup_alter_ne; [done | lia].
Qed.

Lemma index_from_range b l i :
  index_from b l i = -1 \/ i <= index_from b l i < i + Z.of_nat (List.length l).
Proof.
  revert i. induction l as [|p l IH]; intros i; simpl; [by left|].
  case_decide.
  - right. lia.
  - destruct (IH (i + 1)) as [->|?]; [by left | right; lia].
Qed.

Lemma index_from_lookup b l i n p :
  0 <= i -> l !! n = Some p -> p.1 = b ->
  i <= index_from b l i <= i + Z.of_nat n
  /\ fst <$> l !! Z.to_nat (index_from b l i - i) = Some b.
Proof.
  revert i n. induction l as [|q l IH]; intros i n Hi Hn Hb; [done|].
  simpl. case_decide as Hq.
  - split; [lia|]. replace (Z.to_nat (i - i)) with 0%nat by lia. simpl. by rewrite Hq.
  - destruct n as [|n]; [simpl in Hn; congruence|]. simpl in Hn.
    destruct (IH (i + 1) n ltac:(lia) Hn Hb) as [Hr Hl].
    split; [lia|].
    replace (Z.to_nat (index_from b l (i + 1) - i))
      with (S (Z.to_nat (index_from b l (i + 1) - (i + 1)))) by lia.
    done.
Qed.

(** A page of the widget has an index, and that index holds the page. *)
Lemma indexOf_widget w i b :
  widget w i = Some b ->
  0 <= indexOf w b <= i /\ widget w (indexOf w b) = Some b.
Proof.
  intros H. pose proof (widget_Some_range _ _ _ H) as Hr.
  unfold widget in H. rewrite (proj2 (validIndex_spec w i) Hr) in H.
  destruct (pages w !! Z.to_nat i) as [p|] eqn:Hp; [|done].
  simpl in H. injection H as Hb.
  destruct (index_from_lookup b (pages w) 0 (Z.to_nat i) p ltac:(lia) Hp Hb) as [Hi Hl].
  unfold indexOf. split; [lia|].
  unfold widget.
  rewrite (proj2 (validIndex_spec w (index_from b (pages w) 0))) by lia.
  by rewrite Z.sub_0_r in Hl.
Qed.

Lemma indexOf_not_page w b :
  indexOf w b = -1 -> forall i, widget w i <> Some b.
Proof.
  intros H i Hw. apply indexOf_widget in Hw. lia.
Qed.

End QTabWidgetFacts.

(** * Facts about the slots *)

Lemma same_tabs_refl st : same_tabs st st.
Proof. by repeat split. Qed.

Lemma same_tabs_trans st1 st2 st3 :
  same_tabs st1 st2 -> same_tabs st2 st3 -> same_tabs st1 st3.
Proof. unfold same_tabs. intros (?&?&?&?&?) (?&?&?&?&?). repeat split; congruence. Qed.

Lemma same_tabs_count st st' :
  same_tabs st st' -> QTabWidget.count (tabs st') = QTabWidget.count (tabs st).
Proof.
  intros (E&_). unfold QTabWidget.count.
  rewrite <- (length_fmap fst (QTabWidget.pages (tabs st'))), E.
  by rewrite length_fmap.
Qed.

Lemma same_tabs_widget st st' i :
  same_tabs st st' -> QTabWidget.widget (tabs st') i = QTabWidget.widget (tabs st) i.
Proof. intros (E&_). by apply QTabWidgetFacts.widget_ext. Qed.

Lemma same_tabs_currentWidget st st' :
  same_tabs st st' ->
  QTabWidget.currentWidget (tabs st') = QTabWidget.currentWidget (tabs st).
Proof.
  intros H. unfold QTabWidget.currentWidget.
  destruct H as (E&->&_). by apply QTabWidgetFacts.widget_ext.
Qed.

Lemma update_url_bar_background q browser st :
  browser <> QTabWidget.currentWidget (tabs st) ->
  update_url_bar q browser st = Return tt st.
Proof. intros H. unfold update_url_bar. unfold_M. by rewrite decide_True. Qed.

Lemma update_url_bar_active q browser st :
  browser = QTabWidget.currentWidget (tabs st) ->
  update_url_bar q browser st
  = Return tt (set_url_bar (QLineEdit.mk (QLineEdit.shown (QUrl.toString q)) 0) st).
Proof.
  intros H. unfold update_url_bar. unfold_M. rewrite decide_False by tauto.
  unfold set_url_bar, QLineEdit.setCursorPosition, QLineEdit.setText. simpl.
  repeat f_equal. lia.
Qed.

Lemma update_url_bar_same_tabs q browser st :
  exists st', update_url_bar q browser st = Return tt st' /\ same_tabs st st'.
Proof.
  destruct (decide (browser = QTabWidget.currentWidget (tabs st))) as [E|E].
  - eexists. split; [by apply update_url_bar_active|]. by repeat split.
  - exists st. split; [by apply update_url_bar_background | apply same_tabs_refl].
Qed.

Lemma update_tab_title_not_page title browser st :
  QTabWidget.indexOf (tabs st) browser = -1 ->
  update_tab_title title browser st = Return tt st.
Proof. intros H. unfold update_tab_title. unfold_M. by rewrite decide_False by tauto. Qed.

Lemma update_tab_title_background title browser st :
  QTabWidget.indexOf (tabs st) browser <> -1 ->
  Some browser <> QTabWidget.currentWidget (tabs st) ->
  update_tab_title title browser st
  = Return tt
      (set_tabs (QTabWidget.setTabText (tabs st)
                   (QTabWidget.indexOf (tabs st) browser) title) st).
Proof.
  intros Hi Hc. unfold update_tab_title. unfold_M. rewrite decide_True by done.
  simpl. rewrite QTabWidgetFacts.setTabText_currentWidget. by rewrite decide_False.
Qed.

Lemma update_tab_title_active title browser st :
  QTabWidget.indexOf (tabs st) browser <> -1 ->
  Some browser = QTabWidget.currentWidget (tabs st) ->
  update_tab_title title browser st
  = Return tt
      (setWindowTitle ("Python Browser - " +:+ title)
         (set_tabs (QTabWidget.setTabText (tabs st)
                      (QTabWidget.indexOf (tabs st) browser) title) st)).
Proof.
  intros Hi Hc. unfold update_tab_title. unfold_M. rewrite decide_True by done.
  simpl. rewrite QTabWidgetFacts.setTabText_currentWidget. by rewrite decide_True.
Qed.

Lemma update_tab_title_same_tabs title browser st :
  exists st', update_tab_title title browser st = Return tt st' /\ same_tabs st st'.
Proof.
  destruct (decide (QTabWidget.indexOf (tabs st) browser = -1)) as [Hi|Hi].
  { exists st. split; [by apply update_tab_title_not_page | apply same_tabs_refl]. }
  destruct (decide (Some browser = QTabWidget.currentWidget (tabs st))) as [Hc|Hc].
  - eexists. split; [by apply update_tab_title_active|].
    repeat split; simpl;
      auto using QTabWidgetFacts.setTabText_pages, QTabWidgetFacts.setTabText_currentIndex.
  - eexists. split; [by apply update_tab_title_background|].
    repeat split; simpl;
      auto using QTabWidgetFacts.setTabText_pages, QTabWidgetFacts.setTabText_currentIndex.
Qed.

(** Whatever its argument, and whether it returns or raises, the slot of
    [currentChanged] leaves the tabs as they are. *)
Lemma update_ui_on_tab_change_same_tabs index st :
  same_tabs st (state_of (update_ui_on_tab_change index st)).
Proof.
  unfold update_ui_on_tab_change. case_decide; [|apply same_tabs_refl].
  unfold_M. destruct (QTabWidget.widget (tabs st) index) as [b|]; [|apply same_tabs_refl].
  destruct (update_url_bar_same_tabs (url (browsers st b)) (Some b) st) as (st1&->&H1).
  destruct (update_tab_title_same_tabs (title (browsers st1 b)) b st1) as (st2&->&H2).
  simpl. by eapply same_tabs_trans.
Qed.

(** On a page of the widget the slot returns. *)
Lemma update_ui_on_tab_change_returns index st b :
  QTabWidget.widget (tabs st) index = Some b ->
  exists st', update_ui_on_tab_change index st = Return tt st'.
Proof.
  intros Hw. unfold update_ui_on_tab_change. case_decide; [|by eexists].
  unfold_M. rewrite Hw.
  destruct (update_url_bar_same_tabs (url (browsers st b)) (Some b) st) as (st1&->&H1).
  destruct (update_tab_title_same_tabs (title (browsers st1 b)) b st1) as (st2&->&H2).
  by eexists.
Qed.

(** Called with the current index, as [currentChanged] does, the slot
    shows the current tab: its URL in the address bar, its title as the
    label of its tab and in the window title. *)
Lemma update_ui_on_tab_change_current index st b :
  QTabWidget.widget (tabs st) index = Some b ->
  QTabWidget.currentIndex (tabs st) = index ->
  update_ui_on_tab_change index st
  = Return tt
      (setWindowTitle ("Python Browser - " +:+ title (browsers st b))
         (set_tabs (QTabWidget.setTabText (tabs st)
                      (QTabWidget.indexOf (tabs st) b) (title (browsers st b)))
            (set_url_bar
               (QLineEdit.mk (QLineEdit.shown (QUrl.toString (url (browsers st b)))) 0)
               st))).
Proof.
  intros Hw Hc.
  assert (Hcur : Some b = QTabWidget.currentWidget (tabs st)).
  { unfold QTabWidget.currentWidget. by rewrite Hc. }
  pose proof (QTabWidgetFacts.indexOf_widget _ _ _ Hw) as [Hi _].
  pose proof (QTabWidgetFacts.widget_Some_range _ _ _ Hw) as Hr.
  unfold update_ui_on_tab_change. rewrite decide_True by lia.
  unfold_M. rewrite Hw.
  rewrite (update_url_bar_active _ (Some b) st Hcur).
  rewrite update_tab_title_active; simpl; [done | lia | done].
Qed.

(** * Facts about the calls on [self.tabs] *)

Lemma emit_currentChanged_same_tabs sig st :
  same_tabs st (state_of (emit_currentChanged sig st)).
Proof.
  destruct sig as [index|]; simpl;
    [apply update_ui_on_tab_change_same_tabs | apply same_tabs_refl].
Qed.

(** The signal carries an index of the widget, or [-1]: the slot returns. *)
Lemma emit_currentChanged_returns sig st :
  (forall index, sig = Some index ->
     index = -1 \/ 0 <= index < QTabWidget.count (tabs st)) ->
  exists st', emit_currentChanged sig st = Return tt st' /\ same_tabs st st'.
Proof.
  intros H. destruct sig as [index|]; simpl.
  - assert (R : exists st', update_ui_on_tab_change index st = Return tt st').
    { destruct (H index eq_refl) as [->|Hr]; [by eexists|].
      destruct (QTabWidgetFacts.widget_in_range _ _ Hr) as [b Hb].
      by eapply update_ui_on_tab_change_returns. }
    destruct R as [st' R]. exists st'. split; [done|].
    pose proof (update_ui_on_tab_change_same_tabs index st) as F.
    by rewrite R in F.
  - exists st. split; [done | apply same_tabs_refl].
Qed.

Lemma tabs_setCurrentIndex_state index st :
  same_tabs (set_tabs (QTabWidget.setCurrentIndex (tabs st) index).1 st)
            (state_of (tabs_setCurrentIndex index st)).
Proof.
  unfold tabs_setCurrentIndex. unfold_M.
  destruct (QTabWidget.setCurrentIndex (tabs st) index) as [w sig]. simpl.
  pose proof (emit_currentChanged_same_tabs sig (set_tabs w st)) as F.
  by destruct (emit_currentChanged sig (set_tabs w st)).
Qed.

Lemma tabs_setCurrentIndex_returns index st :
  exists st', tabs_setCurrentIndex index st = Return tt st'
    /\ same_tabs (set_tabs (QTabWidget.setCurrentIndex (tabs st) index).1 st) st'.
Proof.
  unfold tabs_setCurrentIndex. unfold_M.
  destruct (QTabWidget.setCurrentIndex (tabs st) index) as [w sig] eqn:E. simpl.
  destruct (emit_currentChanged_returns sig (set_tabs w st)) as (st'&R&F).
  { intros i ->. right. unfold QTabWidget.setCurrentIndex in E.
    destruct (QTabWidget.validIndex (tabs st) index) eqn:V; simpl in E; [|congruence].
    destruct (negb (index =? QTabWidget.currentIndex (tabs st))); [|congruence].
    injection E as <- <-. simpl. by apply QTabWidgetFacts.validIndex_spec. }
  exists st'. by rewrite R.
Qed.

Lemma tabs_removeTab_state index st :
  same_tabs (set_tabs (QTabWidget.removeTab (tabs st) index).1 st)
            (state_of (tabs_removeTab index st)).
Proof.
  unfold tabs_removeTab. unfold_M.
  destruct (QTabWidget.removeTab (tabs st) index) as [w sig]. simpl.
  pose proof (emit_currentChanged_same_tabs sig (set_tabs w st)) as F.
  by destruct (emit_currentChanged sig (set_tabs w st)).
Qed.

Lemma removeTab_signal_in_range w index w' i :
  QTabWidget.removeTab w index = (w', Some i) ->
  i = -1 \/ 0 <= i < QTabWidget.count w'.
Proof.
  unfold QTabWidget.removeTab.
  destruct (QTabWidget.validIndex w index); [|congruence].
  repeat case_match; intros [= <- <-]; unfold QTabWidget.count; simpl; lia.
Qed.

Lemma tabs_removeTab_returns index st :
  exists st', tabs_removeTab index st = Return tt st'
    /\ same_tabs (set_tabs (QTabWidget.removeTab (tabs st) index).1 st) st'.
Proof.
  unfold tabs_removeTab. unfold_M.
  destruct (QTabWidget.removeTab (tabs st) index) as [w sig] eqn:E. simpl.
  destruct (emit_currentChanged_returns sig (set_tabs w st)) as (st'&R&F).
  { intros i ->. simpl. by eapply removeTab_signal_in_range. }
  exists st'. by rewrite R.
Qed.

Lemma tabs_addTab_returns browser label st :
  exists st', tabs_addTab browser label st = Return (QTabWidget.count (tabs st)) st'
    /\ same_tabs (set_tabs (QTabWidget.addTab (tabs st) browser label).1.1 st) st'.
Proof.
  unfold tabs_addTab. unfold_M.
  destruct (QTabWidget.addTab (tabs st) browser label) as [[w i] sig] eqn:E. simpl.
  assert (Hi : i = QTabWidget.count (tabs st)).
  { unfold QTabWidget.addTab in E. by case_match; injection E as <- <- <-. }
  destruct (emit_currentChanged_returns sig (set_tabs w st)) as (st'&R&F).
  { intros j ->. right. unfold QTabWidget.addTab in E.
    case_match; [|congruence]. injection E as <- <- <-.
    unfold QTabWidget.count. simpl. rewrite length_app. simpl. lia. }
  exists st'. rewrite R. by subst i.
Qed.

Lemma setCurrentIndex_pages w i :
  QTabWidget.pages (QTabWidget.setCurrentIndex w i).1 = QTabWidget.pages w.
Proof. unfold QTabWidget.setCurrentIndex. by case_match. Qed.

Lemma setCurrentIndex_in_range w i :
  0 <= i < QTabWidget.count w ->
  QTabWidget.currentIndex (QTabWidget.setCurrentIndex w i).1 = i.
Proof.
  intros H. unfold QTabWidget.setCurrentIndex.
  rewrite (proj2 (QTabWidgetFacts.validIndex_spec w i) H). simpl.
  destruct (i =? QTabWidget.currentIndex w) eqn:E; simpl; [|done].
  apply Z.eqb_eq in E. done.
Qed.

Lemma setCurrentIndex_out_of_range w i :
  i < 0 \/ QTabWidget.count w <= i ->
  QTabWidget.setCurrentIndex w i = (w, None).
Proof.
  intros H. unfold QTabWidget.setCurrentIndex.
  destruct (QTabWidget.validIndex w i) eqn:V; [|done].
  apply QTabWidgetFacts.validIndex_spec in V. lia.
Qed.

Lemma addTab_pages w b label :
  QTabWidget.pages (QTabWidget.addTab w b label).1.1
  = (QTabWidget.pages w ++ [(b, label)])%list.
Proof. unfold QTabWidget.addTab. by case_match. Qed.

(** [add_new_tab] returns, with the tab appended and made current. *)
Lemma add_new_tab_returns browser (q : option QUrl.t) label st :
  exists st',
    add_new_tab browser q label st = Return tt st'
    /\ fst <$> QTabWidget.pages (tabs st')
       = ((fst <$> QTabWidget.pages (tabs st)) ++ [browser])%list
    /\ QTabWidget.currentIndex (tabs st') = QTabWidget.count (tabs st)
    /\ QTabWidget.currentWidget (tabs st') = Some browser
    /\ url (browsers st' browser)
       = match q with Some q => q | None => QUrl.mk DEFAULT_URL end
    /\ next_obj st' = next_obj st.
Proof.
  unfold add_new_tab, setUrl. unfold_M.
  set (u := match q with Some url => url | None => QUrl.mk DEFAULT_URL end).
  set (st1 := set_browsers _ st).
  destruct (tabs_addTab_returns browser label st1) as (st2&R2&F2). rewrite R2.
  destruct (tabs_setCurrentIndex_returns (QTabWidget.count (tabs st1)) st2)
    as (st3&R3&F3).
  rewrite R3. exists st3. split; [done|].
  assert (P2 : fst <$> QTabWidget.pages (tabs st2)
               = ((fst <$> QTabWidget.pages (tabs st)) ++ [browser])%list).
  { destruct F2 as (->&_). simpl. by rewrite addTab_pages, fmap_app. }
  assert (C2 : QTabWidget.count (tabs st2) = QTabWidget.count (tabs st) + 1).
  { unfold QTabWidget.count.
    rewrite <- (length_fmap fst (QTabWidget.pages (tabs st2))), P2.
    rewrite length_app, length_fmap. simpl. lia. }
  assert (P3 : fst <$> QTabWidget.pages (tabs st3)
               = ((fst <$> QTabWidget.pages (tabs st)) ++ [browser])%list).
  { destruct F3 as (->&_). simpl. by rewrite setCurrentIndex_pages. }
  assert (I3 : QTabWidget.currentIndex (tabs st3) = QTabWidget.count (tabs st)).
  { destruct F3 as (_&->&_). simpl. apply setCurrentIndex_in_range.
    pose proof (QTabWidgetFacts.count_nonneg (tabs st)). simpl. lia. }
  split; [done|]. split; [done|]. split; [|split].
  - unfold QTabWidget.currentWidget. rewrite I3, QTabWidgetFacts.widget_fmap.
    assert (V : QTabWidget.validIndex (tabs st3) (QTabWidget.count (tabs st)) = true).
    { apply QTabWidgetFacts.validIndex_spec.
      rewrite (same_tabs_count _ _ F3). simpl.
      unfold QTabWidget.count at 3. rewrite setCurrentIndex_pages.
      fold (QTabWidget.count (tabs st2)).
      pose proof (QTabWidgetFacts.count_nonneg (tabs st)). lia. }
    rewrite V, P3. unfold QTabWidget.count. rewrite Nat2Z.id.
    rewrite lookup_app_r by (rewrite length_fmap; lia).
    rewrite length_fmap, Nat.sub_diag. done.
  - destruct F3 as (_&_&B3&_). destruct F2 as (_&_&B2&_). simpl in B3, B2.
    rewrite B3, B2. unfold st1. simpl.
    rewrite fn_lookup_insert. simpl. by destruct q.
  - destruct F3 as (_&_&_&N3&_). destruct F2 as (_&_&_&N2&_). simpl in N3, N2.
    by rewrite N3, N2.
Qed.

Lemma removeTab_pages w i :
  QTabWidget.pages (QTabWidget.removeTab w i).1
  = if QTabWidget.validIndex w i
    then delete (Z.to_nat i) (QTabWidget.pages w)
    else QTabWidget.pages w.
Proof. unfold QTabWidget.removeTab. by repeat case_match. Qed.

Lemma removeTab_count w i :
  0 <= i < QTabWidget.count w ->
  QTabWidget.count (QTabWidget.removeTab w i).1 = QTabWidget.count w - 1.
Proof.
  intros H. unfold QTabWidget.count at 1. rewrite removeTab_pages.
  rewrite (proj2 (QTabWidgetFacts.validIndex_spec w i) H).
  unfold QTabWidget.count in *. rewrite length_delete; [lia|].
  apply lookup_lt_is_Some_2. lia.
Qed.

(** Removing the current tab while another one remains: the current index
    is clamped to the last index when it pointed past the end. *)
Lemma removeTab_current w :
  2 <= QTabWidget.count w ->
  0 <= QTabWidget.currentIndex w < QTabWidget.count w ->
  QTabWidget.currentIndex (QTabWidget.removeTab w (QTabWidget.currentIndex w)).1
  = Z.min (QTabWidget.currentIndex w) (QTabWidget.count w - 2).
Proof.
  intros H2 Hc.
  pose proof (removeTab_count w _ Hc) as Hn.
  unfold QTabWidget.count at 1 in Hn. rewrite removeTab_pages in Hn.
  unfold QTabWidget.removeTab in *.
  rewrite (proj2 (QTabWidgetFacts.validIndex_spec w _) Hc) in *.
  rewrite Z.eqb_refl.
  destruct (Z.of_nat _ =? 0) eqn:E; simpl.
  - apply Z.eqb_eq in E. lia.
  - lia.
Qed.

Lemma close_tab_last_tab index st :
  QTabWidget.count (tabs st) < 2 -> close_tab index st = Return tt st.
Proof.
  intros H. unfold close_tab. unfold_M.
  by rewrite (proj2 (Z.ltb_lt _ _) H).
Qed.

Lemma close_tab_no_widget index st :
  2 <= QTabWidget.count (tabs st) ->
  QTabWidget.widget (tabs st) index = None ->
  close_tab index st = Raise AttributeError st.
Proof.
  intros H Hw. unfold close_tab. unfold_M.
  rewrite (proj2 (Z.ltb_ge _ _) H). by rewrite Hw.
Qed.

Lemma close_tab_widget index st widget :
  2 <= QTabWidget.count (tabs st) ->
  QTabWidget.widget (tabs st) index = Some widget ->
  exists st',
    close_tab index st = Return tt st'
    /\ fst <$> QTabWidget.pages (tabs st')
       = fst <$> QTabWidget.pages (QTabWidget.removeTab (tabs st) index).1
    /\ QTabWidget.currentIndex (tabs st')
       = QTabWidget.currentIndex (QTabWidget.removeTab (tabs st) index).1
    /\ deleteLater st' = widget :: deleteLater st.
Proof.
  intros H Hw. unfold close_tab, widget_deleteLater. unfold_M.
  rewrite (proj2 (Z.ltb_ge _ _) H), Hw.
  set (st1 := mkMainWindow _ _ _ _ _ _).
  destruct (tabs_removeTab_returns index st1) as (st'&R&F).
  rewrite R. exists st'. split; [done|].
  destruct F as (F1&F2&_&_&F5). by simpl in *.
Qed.

(** One operation keeps a tab in the window. *)
Lemma do_op_keeps_a_tab op st :
  1 <= QTabWidget.count (tabs st) ->
  1 <= QTabWidget.count (tabs (state_of (do_op op st))).
Proof.
  intros H. destruct op as [q|index]; simpl.
  - unfold_M. unfold BrowserTab__init__.
    set (st1 := mkMainWindow _ _ _ _ _ _).
    destruct (add_new_tab_returns (next_obj st) q "New Tab" st1)
      as (st'&->&P&_).
    simpl. unfold QTabWidget.count in *.
    rewrite <- (length_fmap fst (QTabWidget.pages (tabs st'))), P.
    rewrite length_app. simpl. lia.
  - destruct (Z.lt_ge_cases (QTabWidget.count (tabs st)) 2) as [Hlt|Hge].
    { by rewrite close_tab_last_tab. }
    destruct (QTabWidget.widget (tabs st) index) as [widget|] eqn:Hw.
    + destruct (close_tab_widget index st widget Hge Hw) as (st'&->&P&_).
      simpl. pose proof (QTabWidgetFacts.widget_Some_range _ _ _ Hw) as Hr.
      pose proof (removeTab_count _ _ Hr) as Hn.
      unfold QTabWidget.count in *.
      rewrite <- (length_fmap fst (QTabWidget.pages (tabs st'))), P, length_fmap.
      lia.
    + by rewrite close_tab_no_widget.
Qed.

Lemma run_keeps_a_tab ops st :
  1 <= QTabWidget.count (tabs st) ->
  1 <= QTabWidget.count (tabs (run ops st)).
Proof.
  revert st. induction ops as [|op ops IH]; intros st H; [done|].
  simpl. apply IH. by apply do_op_keeps_a_tab.
Qed.

Lemma prefix_dot c s :
  String.prefix "." (String c s) = if ascii_dec "." c then true else false.
Proof.
  change (String.prefix "." (String c s))
    with (if ascii_dec "." c then String.prefix "" s else false).
  destruct (ascii_dec "." c); [by destruct s | done].
Qed.

(** [str_in "."] is the test for a ["."] character. *)
Lemma str_in_dot s : str_in "." s = true <-> contains_dot s.
Proof.
  unfold contains_dot. induction s as [|c s IH].
  - split; [done|]. intros ([|a pre]&post&E); discriminate.
  - cbn [str_in]. rewrite prefix_dot.
    destruct (ascii_dec "." c) as [<-|Hc].
    + split; [|done]. intros _. by exists "", s.
    + rewrite orb_false_l, IH. split.
      * intros (pre&post&->). by exists (String c pre), post.
      * intros ([|a pre]&post&E); cbn in E; injection E as E1 E2.
        { by destruct Hc. }
        by exists pre, post.
Qed.

Lemma typed_url_scheme url_text :
  QUrl.scheme (QUrl.mk url_text) <> "" -> typed_url url_text = QUrl.mk url_text.
Proof.
  intros H. unfold typed_url.
  destruct (String.eqb_spec (QUrl.scheme (QUrl.mk url_text)) ""); done.
Qed.

Lemma typed_url_no_scheme url_text :
  QUrl.scheme (QUrl.mk url_text) = "" ->
  typed_url url_text
  = if str_in "." url_text
    then QUrl.mk ("https://" +:+ url_text)
    else QUrl.mk ("https://www.google.com/search?q=" +:+ url_text).
Proof. intros H. unfold typed_url. by rewrite H. Qed.

Lemma navigate_to_url_current st current :
  QTabWidget.currentWidget (tabs st) = Some current ->
  navigate_to_url st
  = setUrl current (typed_url (QLineEdit.text (url_bar st))) st.
Proof. intros H. unfold navigate_to_url. unfold_M. by rewrite H. Qed.

Lemma index_from_alter_label b (l : list (obj * string)) n label i :
  QTabWidget.index_from b (alter (λ p, (p.1, label)) n l) i
  = QTabWidget.index_from b l i.
Proof.
  revert n i. induction l as [|p l IH]; intros [|n] i; simpl; try done.
  case_decide; [done|]. apply IH.
Qed.

Lemma indexOf_setTabText w i label b :
  QTabWidget.indexOf (QTabWidget.setTabText w i label) b = QTabWidget.indexOf w b.
Proof.
  unfold QTabWidget.indexOf, QTabWidget.setTabText.
  destruct (QTabWidget.validIndex w i); [|done].
  apply index_from_alter_label.
Qed.

(** Called with the current index, the slot makes the window show the
    current tab, and moves no tab. *)
Lemma update_ui_on_tab_change_shows index st b :
  QTabWidget.widget (tabs st) index = Some b ->
  QTabWidget.currentIndex (tabs st) = index ->
  exists st',
    update_ui_on_tab_change index st = Return tt st'
    /\ same_tabs st st' /\ shows_tab st' b.
Proof.
  intros Hw Hc. rewrite (update_ui_on_tab_change_current index st b Hw Hc).
  eexists. split; [done|].
  destruct (QTabWidgetFacts.indexOf_widget _ _ _ Hw) as [Hi Hw'].
  pose proof (QTabWidgetFacts.widget_Some_range _ _ _ Hw') as Hr.
  split.
  - repeat split; simpl;
      auto using QTabWidgetFacts.setTabText_pages,
                 QTabWidgetFacts.setTabText_currentIndex.
  - unfold shows_tab, shown_url, shown_label. simpl.
    rewrite indexOf_setTabText.
    by rewrite QTabWidgetFacts.tabText_setTabText.
Qed.

(** ** The handlers as state transformers *)

Lemma set_tabs_id st : set_tabs (tabs st) st = st.
Proof. by destruct st. Qed.

Lemma update_ui_on_tab_change_refreshed index st b :
  QTabWidget.widget (tabs st) index = Some b ->
  QTabWidget.currentIndex (tabs st) = index ->
  update_ui_on_tab_change index st = Return tt (refreshed b st).
Proof. apply update_ui_on_tab_change_current. Qed.

Lemma same_tabs_refreshed b st : same_tabs st (refreshed b st).
Proof.
  repeat split; simpl;
    auto using QTabWidgetFacts.setTabText_pages, QTabWidgetFacts.setTabText_currentIndex.
Qed.

Lemma tabs_setCurrentIndex_same index st :
  index = QTabWidget.currentIndex (tabs st)
  \/ index < 0 \/ QTabWidget.count (tabs st) <= index ->
  tabs_setCurrentIndex index st = Return tt st.
Proof.
  intros H. unfold tabs_setCurrentIndex. unfold_M.
  assert (E : QTabWidget.setCurrentIndex (tabs st) index = (tabs st, None)).
  { destruct H as [->|H]; [|by apply setCurrentIndex_out_of_range].
    unfold QTabWidget.setCurrentIndex. rewrite Z.eqb_refl. simpl.
    by rewrite andb_false_r. }
  rewrite E. simpl. by rewrite set_tabs_id.
Qed.

Lemma tabs_setCurrentIndex_other index st b :
  QTabWidget.widget (tabs st) index = Some b ->
  index <> QTabWidget.currentIndex (tabs st) ->
  tabs_setCurrentIndex index st
  = Return tt (refreshed b (set_tabs (QTabWidget.mk (QTabWidget.pages (tabs st)) index) st)).
Proof.
  intros Hw Hne.
  pose proof (QTabWidgetFacts.widget_Some_range _ _ _ Hw) as Hr.
  unfold tabs_setCurrentIndex. unfold_M. unfold QTabWidget.setCurrentIndex.
  rewrite (proj2 (QTabWidgetFacts.validIndex_spec _ _) Hr).
  rewrite (proj2 (Z.eqb_neq _ _) Hne). simpl.
  rewrite (update_ui_on_tab_change_refreshed index _ b); [done | | done].
  by erewrite QTabWidgetFacts.widget_ext.
Qed.

(** * Runs of the model *)

(** The scenario of the spec: tab A at startup; a tab B is added and
    becomes active; closing tab 0 leaves B, at index 0; closing the last
    tab is rejected. *)
Example scenario_add_close_close :
  let after_add := run [addTab (Some (QUrl.mk "https://b.test"))] startup in
  let after_close := run [closeTab 0] after_add in
  fst <$> QTabWidget.pages (tabs startup) = [0%nat]
  /\ fst <$> QTabWidget.pages (tabs after_add) = [0%nat; 1%nat]
  /\ QTabWidget.currentIndex (tabs after_add) = 1
  /\ url (browsers after_add 1%nat) = QUrl.mk "https://b.test"
  /\ fst <$> QTabWidget.pages (tabs after_close) = [1%nat]
  /\ QTabWidget.currentIndex (tabs after_close) = 0
  /\ close_tab 0 after_close = Return tt after_close.
Proof.
  cbv zeta. do 6 (split; [vm_compute; reflexivity|]).
  apply close_tab_last_tab. vm_compute. reflexivity.
Qed.

Example scheme_examples :
  QUrl.scheme (QUrl.mk "https://x.org") = "https"
  /\ QUrl.scheme (QUrl.mk "HTTP://x.org") = "http"
  /\ QUrl.scheme (QUrl.mk "example.com") = ""
  /\ QUrl.scheme (QUrl.mk "hello world") = ""
  /\ QUrl.scheme (QUrl.mk "what is a:b") = ""
  /\ QUrl.scheme (QUrl.mk "localhost:8080") = "localhost".
Proof. do 5 (split; [vm_compute; reflexivity|]). vm_compute. reflexivity. Qed.

(** * The claims *)


(** C1. Startup returns and leaves exactly one tab; from there, the
    window has at least one tab after every finite sequence of [addTab]
    and [closeTab] operations. *)
Theorem tabs_never_empty (ops : list TabOp) :
  MainWindow__init__ QMainWindow__init__ = Return tt startup
  /\ QTabWidget.count (tabs startup) = 1
  /\ QTabWidget.pages (tabs (run ops startup)) <> [].
Proof.
  assert (C : QTabWidget.count (tabs startup) = 1) by (vm_compute; reflexivity).
  split; [|split; [exact C|]].
  - unfold startup.
    destruct (MainWindow__init__ QMainWindow__init__) as [[] st|e st] eqn:E;
      [reflexivity|].
    vm_compute in E. discriminate.
  - pose proof (run_keeps_a_tab ops startup ltac:(rewrite C; lia)) as H.
    intros E. unfold QTabWidget.count in H. rewrite E in H. simpl in H. lia.
Qed.

(** C2. With exactly one tab, [close_tab] returns at once for any index:
    the window, and so its tabs and its current index, is unchanged. *)
Theorem close_tab_single_tab_noop (index : Z) (st : MainWindow) :
  QTabWidget.count (tabs st) = 1 ->
  close_tab index st = Return tt st.
Proof. intros H. apply close_tab_last_tab. lia. Qed.

Lemma close_tab_single_tab_noop_witness :
  QTabWidget.count (tabs startup) = 1
  /\ close_tab 0 startup = Return tt startup.
Proof.
  split; [reflexivity|].
  apply (close_tab_single_tab_noop 0 startup). reflexivity.
Defined.

(** C3, as amended. With at least two tabs, [close_tab] with an index out
    of range changes nothing, neither the tabs nor the current index, but
    it does not return: [widget(index)] is [None] and the call of
    [deleteLater] on it raises [AttributeError]. *)
Theorem close_tab_out_of_range_raises (index : Z) (st : MainWindow) :
  2 <= QTabWidget.count (tabs st) ->
  index < 0 \/ QTabWidget.count (tabs st) <= index ->
  close_tab index st = Raise AttributeError st.
Proof.
  intros H Hr. apply close_tab_no_widget; [done|].
  by apply QTabWidgetFacts.widget_out_of_range.
Qed.

Lemma close_tab_out_of_range_raises_witness :
  2 <= QTabWidget.count (tabs two_tabs)
  /\ (5 < 0 \/ QTabWidget.count (tabs two_tabs) <= 5)
  /\ close_tab 5 two_tabs = Raise AttributeError two_tabs.
Proof.
  assert (C : QTabWidget.count (tabs two_tabs) = 2) by reflexivity.
  split; [lia|]. split; [lia|].
  apply (close_tab_out_of_range_raises 5 two_tabs); lia.
Defined.

(** C3, as stated, fails: with two tabs, [close_tab(5)] is no silent
    no-op, it raises. *)
Lemma close_tab_out_of_range_not_silent :
  2 <= QTabWidget.count (tabs two_tabs)
  /\ QTabWidget.count (tabs two_tabs) <= 5
  /\ close_tab 5 two_tabs <> Return tt two_tabs.
Proof.
  assert (C : QTabWidget.count (tabs two_tabs) = 2) by reflexivity.
  split; [lia|]. split; [lia|].
  rewrite close_tab_no_widget; [discriminate | lia | reflexivity].
Qed.

(** C4. The address-bar text is resolved in this order: a text in which
    the URL parser finds a scheme is used as it is; otherwise a text with
    a ["."] gets ["https://"] in front; otherwise the text is appended,
    as it is, to the search address.  The three examples resolve as the
    claim says, and [navigate_to_url] hands the resolved URL to [setUrl]
    of the current tab. *)
Theorem navigate_to_url_resolves (url_text : string) :
  (QUrl.scheme (QUrl.mk url_text) <> "" ->
     typed_url url_text = QUrl.mk url_text)
  /\ (QUrl.scheme (QUrl.mk url_text) = "" -> contains_dot url_text ->
     typed_url url_text = QUrl.mk ("https://" +:+ url_text))
  /\ (QUrl.scheme (QUrl.mk url_text) = "" -> ~ contains_dot url_text ->
     typed_url url_text = QUrl.mk ("https://www.google.com/search?q=" +:+ url_text))
  /\ typed_url "example.com" = QUrl.mk "https://example.com"
  /\ typed_url "https://x.org" = QUrl.mk "https://x.org"
  /\ typed_url "hello world" = QUrl.mk "https://www.google.com/search?q=hello world"
  /\ (forall st current,
        QLineEdit.text (url_bar st) = url_text ->
        QTabWidget.currentWidget (tabs st) = Some current ->
        exists st',
          navigate_to_url st = Return tt st'
          /\ url (browsers st' current) = typed_url url_text).
Proof.
  split; [apply typed_url_scheme|].
  split.
  { intros H D. rewrite typed_url_no_scheme by done.
    by rewrite (proj2 (str_in_dot url_text) D). }
  split.
  { intros H D. rewrite typed_url_no_scheme by done.
    destruct (str_in "." url_text) eqn:E; [|done].
    by apply str_in_dot in E. }
  do 3 (split; [reflexivity|]).
  intros st current <- Hc. rewrite (navigate_to_url_current st current Hc).
  unfold setUrl. unfold_M. eexists. split; [done|]. simpl.
  by rewrite fn_lookup_insert.
Qed.

Lemma navigate_to_url_resolves_witness :
  typed_url "ftp://files.test" = QUrl.mk "ftp://files.test"
  /\ exists st',
       navigate_to_url (url_bar_edited "example.com" startup) = Return tt st'
       /\ url (browsers st' 0%nat) = QUrl.mk "https://example.com".
Proof.
  split.
  - apply (navigate_to_url_resolves "ftp://files.test"). vm_compute. discriminate.
  - destruct (navigate_to_url_resolves "example.com") as (_&_&_&_&_&_&N).
    destruct (N (url_bar_edited "example.com" startup) 0%nat eq_refl eq_refl)
      as (st'&R&U).
    exists st'. split; [exact R|]. rewrite U. reflexivity.
Defined.

(** C5, as amended.  An event of a tab that is not the current one leaves
    the address bar and the window title as they are; a [titleChanged]
    event still sets the label of the reporting tab to the new title,
    and no other label.  An event of the current tab sets the address
    bar (to the string of the URL, cut at the length a line edit holds),
    the label of the tab and the window title. *)
Theorem tab_events_update_display (q : QUrl.t) (new_title : string)
    (browser : obj) (st : MainWindow) :
  (QTabWidget.currentWidget (tabs st) <> Some browser ->
     update_url_bar q (Some browser) st = Return tt st
     /\ exists st',
          update_tab_title new_title browser st = Return tt st'
          /\ url_bar st' = url_bar st
          /\ windowTitle st' = windowTitle st
          /\ same_tabs st st'
          /\ (forall i, i <> QTabWidget.indexOf (tabs st) browser ->
                shown_label st' i = shown_label st i)
          /\ (QTabWidget.indexOf (tabs st) browser <> -1 ->
                shown_label st' (QTabWidget.indexOf (tabs st) browser) = new_title))
  /\ (QTabWidget.currentWidget (tabs st) = Some browser ->
     (exists st',
        update_url_bar q (Some browser) st = Return tt st'
        /\ shown_url st' = QLineEdit.shown (QUrl.toString q)
        /\ windowTitle st' = windowTitle st /\ tabs st' = tabs st)
     /\ exists st',
          update_tab_title new_title browser st = Return tt st'
          /\ url_bar st' = url_bar st
          /\ windowTitle st' = "Python Browser - " +:+ new_title
          /\ shown_label st' (QTabWidget.indexOf (tabs st) browser) = new_title).
Proof.
  split.
  - intros Hc. split; [apply update_url_bar_background; congruence|].
    destruct (decide (QTabWidget.indexOf (tabs st) browser = -1)) as [Hi|Hi].
    + exists st. rewrite update_tab_title_not_page by done.
      repeat split; done.
    + eexists. rewrite update_tab_title_background by (done || congruence).
      split; [done|]. split; [done|]. split; [done|]. split.
      { repeat split; simpl;
          auto using QTabWidgetFacts.setTabText_pages,
                     QTabWidgetFacts.setTabText_currentIndex. }
      unfold shown_label. simpl. split.
      * intros i Hne. by apply QTabWidgetFacts.tabText_setTabText_ne.
      * intros _. apply QTabWidgetFacts.tabText_setTabText.
        destruct (QTabWidgetFacts.index_from_range browser
                    (QTabWidget.pages (tabs st)) 0) as [E|E]; [done|].
        unfold QTabWidget.indexOf, QTabWidget.count. lia.
  - intros Hc. split.
    + eexists. rewrite update_url_bar_active by done. by repeat split.
    + destruct (QTabWidgetFacts.indexOf_widget _ _ _ Hc) as [Hi Hw].
      pose proof (QTabWidgetFacts.widget_Some_range _ _ _ Hw) as Hr.
      eexists. rewrite update_tab_title_active by (done || lia).
      split; [done|]. split; [done|]. split; [done|].
      unfold shown_label. simpl. by apply QTabWidgetFacts.tabText_setTabText.
Qed.

Lemma tab_events_update_display_witness :
  QTabWidget.currentWidget (tabs two_tabs) <> Some 0%nat
  /\ update_url_bar (QUrl.mk "https://b.test") (Some 0%nat) two_tabs
     = Return tt two_tabs
  /\ QTabWidget.currentWidget (tabs two_tabs) = Some 1%nat
  /\ exists st',
       update_tab_title "News" 1%nat two_tabs = Return tt st'
       /\ windowTitle st' = "Python Browser - News".
Proof.
  assert (Hc : QTabWidget.currentWidget (tabs two_tabs) = Some 1%nat) by reflexivity.
  split; [rewrite Hc; discriminate|]. split; [|split; [exact Hc|]].
  - apply (tab_events_update_display (QUrl.mk "https://b.test") "" 0%nat two_tabs).
    rewrite Hc. discriminate.
  - destruct (tab_events_update_display (QUrl.mk "") "News" 1%nat two_tabs)
      as (_&A).
    destruct (A Hc) as (_&st'&R&_&W&_). exists st'. by split.
Defined.

(** C5, as stated, fails: with two tabs, the second one current, a
    [titleChanged] event of the first tab changes the label of that tab. *)
Lemma background_title_changes_label :
  QTabWidget.currentWidget (tabs two_tabs) <> Some 0%nat
  /\ exists st',
       update_tab_title "News" 0%nat two_tabs = Return tt st'
       /\ shown_label two_tabs 0 = ""
       /\ shown_label st' 0 = "News"
       /\ shown_label st' 0 <> shown_label two_tabs 0.
Proof.
  assert (Hc : QTabWidget.currentWidget (tabs two_tabs) = Some 1%nat) by reflexivity.
  assert (Hi : QTabWidget.indexOf (tabs two_tabs) 0%nat = 0) by reflexivity.
  split; [rewrite Hc; discriminate|].
  eexists. split.
  { apply update_tab_title_background; [rewrite Hi; lia | rewrite Hc; discriminate]. }
  rewrite Hi. split; [reflexivity|]. split; [reflexivity|].
  vm_compute. discriminate.
Qed.

(** C6. [add_new_tab] always returns: the tab it is given is appended at
    the end of the tabs, the current index becomes the index of that tab
    (the number of tabs there were), the current widget is that tab, and
    the tab has been asked to load the given URL, or the configured home
    URL when none is given ([DEFAULT_URL], the same address as
    [HOME_URL]). *)
Theorem add_new_tab_appends_and_selects browser (q : option QUrl.t) label st :
  exists st',
    add_new_tab browser q label st = Return tt st'
    /\ fst <$> QTabWidget.pages (tabs st')
       = ((fst <$> QTabWidget.pages (tabs st)) ++ [browser])%list
    /\ QTabWidget.currentIndex (tabs st') = QTabWidget.count (tabs st)
    /\ QTabWidget.currentWidget (tabs st') = Some browser
    /\ url (browsers st' browser)
       = match q with Some q => q | None => QUrl.mk HOME_URL end.
Proof.
  destruct (add_new_tab_returns browser q label st) as (st'&R&P&I&W&U&_).
  exists st'. by repeat split.
Qed.

(** C7. With at least two tabs, closing the active tab returns, removes
    that tab, and leaves the current index in range: it is the old index,
    clamped to the last remaining index. *)
Theorem close_tab_active_keeps_valid_index (st : MainWindow) :
  2 <= QTabWidget.count (tabs st) ->
  0 <= QTabWidget.currentIndex (tabs st) < QTabWidget.count (tabs st) ->
  exists st',
    close_tab (QTabWidget.currentIndex (tabs st)) st = Return tt st'
    /\ QTabWidget.count (tabs st') = QTabWidget.count (tabs st) - 1
    /\ 0 <= QTabWidget.currentIndex (tabs st') < QTabWidget.count (tabs st')
    /\ QTabWidget.currentIndex (tabs st')
       = Z.min (QTabWidget.currentIndex (tabs st)) (QTabWidget.count (tabs st') - 1).
Proof.
  intros H2 Hc.
  destruct (QTabWidgetFacts.widget_in_range _ _ Hc) as [widget Hw].
  destruct (close_tab_widget _ st widget H2 Hw) as (st'&R&P&I&_).
  exists st'. split; [done|].
  assert (N : QTabWidget.count (tabs st') = QTabWidget.count (tabs st) - 1).
  { rewrite <- (removeTab_count _ _ Hc). unfold QTabWidget.count.
    rewrite <- (length_fmap fst (QTabWidget.pages (tabs st'))), P.
    by rewrite length_fmap. }
  rewrite I, removeTab_current, N by done. lia.
Qed.

Lemma close_tab_active_keeps_valid_index_witness :
  exists st',
    close_tab (QTabWidget.currentIndex (tabs two_tabs)) two_tabs = Return tt st'
    /\ QTabWidget.count (tabs st') = QTabWidget.count (tabs two_tabs) - 1
    /\ 0 <= QTabWidget.currentIndex (tabs st') < QTabWidget.count (tabs st')
    /\ QTabWidget.currentIndex (tabs st')
       = Z.min (QTabWidget.currentIndex (tabs two_tabs))
               (QTabWidget.count (tabs st') - 1).
Proof.
  apply (close_tab_active_keeps_valid_index two_tabs).
  - assert (C : QTabWidget.count (tabs two_tabs) = 2) by reflexivity. lia.
  - assert (C : QTabWidget.count (tabs two_tabs) = 2) by reflexivity.
    assert (I : QTabWidget.currentIndex (tabs two_tabs) = 1) by reflexivity.
    lia.
Defined.

(** C8, as amended.  Selecting the tab at an index in range other than
    the current one makes that index the current one, and the
    [currentChanged] slot makes the window show the newly current tab:
    its URL in the address bar, its title in the window title and as its
    label.  Selecting the index that is current already, or an index out
    of range, changes nothing.  The slot shows the current tab whenever
    it is called with the current index, and does nothing on [-1]. *)
Theorem switch_tab_refreshes (index : Z) (st : MainWindow) :
  (forall b, QTabWidget.widget (tabs st) index = Some b ->
     (index <> QTabWidget.currentIndex (tabs st) ->
      exists st',
        tabs_setCurrentIndex index st = Return tt st'
        /\ QTabWidget.currentIndex (tabs st') = index
        /\ fst <$> QTabWidget.pages (tabs st') = fst <$> QTabWidget.pages (tabs st)
        /\ browsers st' = browsers st
        /\ shows_tab st' b)
     /\ (QTabWidget.currentIndex (tabs st) = index ->
         exists st',
           update_ui_on_tab_change index st = Return tt st'
           /\ same_tabs st st' /\ shows_tab st' b))
  /\ (index = QTabWidget.currentIndex (tabs st)
      \/ index < 0 \/ QTabWidget.count (tabs st) <= index ->
      tabs_setCurrentIndex index st = Return tt st)
  /\ update_ui_on_tab_change (-1) st = Return tt st.
Proof.
  split; [|split].
  - intros b Hw. split; [|by apply update_ui_on_tab_change_shows].
    intros Hne. rewrite (tabs_setCurrentIndex_other index st b Hw Hne).
    set (st0 := set_tabs _ st).
    destruct (update_ui_on_tab_change_shows index st0 b) as (st'&R&F&S);
      [by erewrite QTabWidgetFacts.widget_ext | done |].
    rewrite (update_ui_on_tab_change_refreshed index st0 b) in R;
      [|by erewrite QTabWidgetFacts.widget_ext | done].
    injection R as <-. eexists. split; [done|].
    destruct F as (F1&F2&F3&_). subst st0. simpl in F1, F2, F3.
    do 3 (split; [done|]). done.
  - apply tabs_setCurrentIndex_same.
  - reflexivity.
Qed.

Lemma switch_tab_refreshes_witness :
  QTabWidget.widget (tabs two_tabs) 0 = Some 0%nat
  /\ 0 <> QTabWidget.currentIndex (tabs two_tabs)
  /\ (exists st',
        tabs_setCurrentIndex 0 two_tabs = Return tt st'
        /\ QTabWidget.currentIndex (tabs st') = 0
        /\ shows_tab st' 0%nat)
  /\ tabs_setCurrentIndex 7 two_tabs = Return tt two_tabs.
Proof.
  assert (Hw : QTabWidget.widget (tabs two_tabs) 0 = Some 0%nat) by reflexivity.
  assert (Hc : QTabWidget.currentIndex (tabs two_tabs) = 1) by reflexivity.
  assert (Hn : QTabWidget.count (tabs two_tabs) = 2) by reflexivity.
  split; [exact Hw|]. split; [rewrite Hc; lia|]. split.
  - destruct (switch_tab_refreshes 0 two_tabs) as (A&_).
    destruct (A 0%nat Hw) as (A1&_).
    assert (Hne : 0 <> QTabWidget.currentIndex (tabs two_tabs)) by (rewrite Hc; lia).
    destruct (A1 Hne) as (st'&R&I&_&_&S).
    exists st'. split; [exact R|]. split; [exact I | exact S].
  - destruct (switch_tab_refreshes 7 two_tabs) as (_&B&_).
    apply B. rewrite Hn. lia.
Defined.

(** C8, as stated, fails: with two tabs, the second one current, selecting
    index 1 again leaves in the address bar whatever the user has typed
    there, so that two different typed texts cannot both be the URL of
    the tab. *)
Lemma reselecting_current_tab_keeps_typed_text :
  QTabWidget.widget (tabs two_tabs) 1 = Some 1%nat
  /\ tabs_setCurrentIndex 1 (url_bar_edited "zzz" two_tabs)
     = Return tt (url_bar_edited "zzz" two_tabs)
  /\ tabs_setCurrentIndex 1 (url_bar_edited "yyy" two_tabs)
     = Return tt (url_bar_edited "yyy" two_tabs)
  /\ shown_url (url_bar_edited "zzz" two_tabs) = "zzz"
  /\ shown_url (url_bar_edited "yyy" two_tabs) = "yyy"
  /\ ~ (shows_tab (url_bar_edited "zzz" two_tabs) 1%nat
        /\ shows_tab (url_bar_edited "yyy" two_tabs) 1%nat).
Proof.
  assert (Hc : forall text,
             QTabWidget.currentIndex (tabs (url_bar_edited text two_tabs)) = 1)
    by (intros text; reflexivity).
  split; [reflexivity|].
  split; [apply tabs_setCurrentIndex_same; left; by rewrite Hc|].
  split; [apply tabs_setCurrentIndex_same; left; by rewrite Hc|].
  split; [vm_compute; reflexivity|]. split; [vm_compute; reflexivity|].
  intros [(U1&_) (U2&_)].
  assert (E : shown_url (url_bar_edited "zzz" two_tabs)
              = shown_url (url_bar_edited "yyy" two_tabs)).
  { rewrite U1, U2. reflexivity. }
  vm_compute in E. discriminate E.
Qed.

(** C9.  The code fails the claim.  [createWindow] reads the class
    attribute [QWebEngineView.WebBrowserWindow] before anything else; the
    class has none, so that for every kind of window, the browser-window
    kind too, the call raises [AttributeError] and leaves the window as
    it is: no tab is created.  Lines 26 to 28, which the call never
    reaches, do what the claim says: they create a view, append it as the
    last tab, make it current and return it. *)
Theorem createWindow_raises_before_opening (self : obj) (type : WebWindowType)
    (st : MainWindow) :
  createWindow self type st = Raise AttributeError st
  /\ exists st',
       createWindow_new_tab st = Return (Some (next_obj st)) st'
       /\ next_obj st' = S (next_obj st)
       /\ fst <$> QTabWidget.pages (tabs st')
          = ((fst <$> QTabWidget.pages (tabs st)) ++ [next_obj st])%list
       /\ QTabWidget.currentIndex (tabs st') = QTabWidget.count (tabs st)
       /\ QTabWidget.currentWidget (tabs st') = Some (next_obj st).
Proof.
  split; [reflexivity|].
  unfold createWindow_new_tab, BrowserTab__init__. unfold_M.
  set (st1 := mkMainWindow _ _ _ _ _ _).
  destruct (add_new_tab_returns (next_obj st) (Some (QUrl.mk DEFAULT_URL)) "New Tab" st1)
    as (st'&->&P&I&W&_&N).
  exists st'. by repeat split.
Qed.

(** C10.  The code fails the claim, by the defect of C9.  Whatever the
    kind of window and the address the engine asks for, the request
    raises [AttributeError] in [createWindow] and the window stays as it
    is: no tab is created, and none is asked to load the default address.
    Lines 26 to 28, which are never reached, would ask the new tab to load
    the fixed default address, https://www.google.com. *)
Theorem new_window_request_raises (parent : obj) (type : WebWindowType)
    (requested : QUrl.t) (st : MainWindow) :
  new_window_requested parent type requested st = Raise AttributeError st
  /\ exists new_tab st',
       createWindow_new_tab st = Return (Some new_tab) st'
       /\ url (browsers st' new_tab) = QUrl.mk "https://www.google.com".
Proof.
  split; [reflexivity|].
  unfold createWindow_new_tab, BrowserTab__init__. unfold_M.
  set (st1 := mkMainWindow _ _ _ _ _ _).
  destruct (add_new_tab_returns (next_obj st) (Some (QUrl.mk DEFAULT_URL)) "New Tab" st1)
    as (st'&->&_&_&_&U&_).
  by exists (next_obj st), st'.
Qed.

(** * Further properties *)

(** ** The handlers as state transformers, continued *)

Lemma widget_snoc w b label :
  QTabWidget.widget
    (QTabWidget.mk (QTabWidget.pages w ++ [(b, label)])%list (QTabWidget.count w))
    (QTabWidget.count w) = Some b.
Proof.
  unfold QTabWidget.widget.
  assert (V : QTabWidget.validIndex
                (QTabWidget.mk (QTabWidget.pages w ++ [(b, label)])%list
                   (QTabWidget.count w)) (QTabWidget.count w) = true).
  { apply QTabWidgetFacts.validIndex_spec. unfold QTabWidget.count. simpl.
    rewrite length_app. simpl. lia. }
  rewrite V. simpl. unfold QTabWidget.count. rewrite Nat2Z.id.
  rewrite lookup_app_r by lia. by rewrite Nat.sub_diag.
Qed.

(** With the current index in range, [add_new_tab] returns the window
    with the tab opened and shown. *)
Lemma add_new_tab_opened browser q label st :
  current_valid st ->
  add_new_tab browser q label st
  = Return tt
      (refreshed browser
         (opened browser (match q with Some q => q | None => QUrl.mk DEFAULT_URL end)
            label st)).
Proof.
  intros Hv. unfold current_valid in Hv.
  unfold add_new_tab, setUrl, tabs_addTab. unfold_M. unfold QTabWidget.addTab. simpl.
  rewrite (proj2 (Z.eqb_neq (QTabWidget.count (tabs st)) 0)) by lia. simpl.
  rewrite (tabs_setCurrentIndex_other _ _ browser); simpl.
  - done.
  - apply widget_snoc.
  - lia.
Qed.

Lemma count_closed index c w st :
  0 <= index < QTabWidget.count (tabs st) ->
  QTabWidget.count (tabs (closed index c w st)) = QTabWidget.count (tabs st) - 1.
Proof.
  intros H. unfold QTabWidget.count in *. simpl.
  rewrite length_delete; [lia|]. apply lookup_lt_is_Some_2. lia.
Qed.

(** [close_tab] on a tab of a window with two tabs or more: the tab is
    taken out and queued for deletion; the current index follows the
    current tab, or is clamped when that tab is the one closed, and the
    slot of [currentChanged] then shows the current tab. *)
Lemma close_tab_closed index st w :
  2 <= QTabWidget.count (tabs st) ->
  QTabWidget.widget (tabs st) index = Some w ->
  current_valid st ->
  let cur := QTabWidget.currentIndex (tabs st) in
  (cur < index /\ close_tab index st = Return tt (closed index cur w st))
  \/ (index <= cur
      /\ let c := if decide (index = cur)
                  then Z.min index (QTabWidget.count (tabs st) - 2)
                  else cur - 1 in
         0 <= c < QTabWidget.count (tabs st) - 1
         /\ exists b, QTabWidget.widget (tabs (closed index c w st)) c = Some b
            /\ close_tab index st = Return tt (refreshed b (closed index c w st))).
Proof.
  intros H2 Hw Hv cur. unfold current_valid in Hv. fold cur in Hv.
  pose proof (QTabWidgetFacts.widget_Some_range _ _ _ Hw) as Hr.
  assert (Hlen : Z.of_nat (List.length (delete (Z.to_nat index) (QTabWidget.pages (tabs st))))
                 = QTabWidget.count (tabs st) - 1).
  { apply (count_closed index 0 w st Hr). }
  assert (Hstep : close_tab index st
                  = tabs_removeTab index
                      (mkMainWindow (windowTitle st) (tabs st) (url_bar st)
                         (browsers st) (next_obj st) (w :: deleteLater st))).
  { unfold close_tab, widget_deleteLater. unfold_M.
    by rewrite (proj2 (Z.ltb_ge _ _) H2), Hw. }
  rewrite Hstep. unfold tabs_removeTab. unfold_M. simpl.
  unfold QTabWidget.removeTab.
  rewrite (proj2 (QTabWidgetFacts.validIndex_spec _ _) Hr). fold cur.
  rewrite Hlen.
  destruct (Z.lt_trichotomy index cur) as [Hlt|[Heq|Hgt]].
  - right. split; [lia|]. rewrite decide_False by lia.
    rewrite (proj2 (Z.eqb_neq _ _)) by lia.
    rewrite (proj2 (Z.ltb_lt _ _) Hlt).
    rewrite (proj2 (Z.leb_le 0 (cur - 1))) by lia.
    rewrite (proj2 (Z.ltb_lt (cur - 1) _)) by lia. simpl.
    split; [lia|].
    destruct (QTabWidgetFacts.widget_in_range (tabs (closed index (cur - 1) w st)) (cur - 1))
      as [b Hb]; [rewrite count_closed by done; lia|].
    exists b. split; [done|].
    by apply (update_ui_on_tab_change_refreshed (cur - 1) (closed index (cur - 1) w st) b).
  - right. split; [lia|]. rewrite decide_True by done.
    rewrite (proj2 (Z.eqb_eq _ _) Heq).
    rewrite (proj2 (Z.eqb_neq (QTabWidget.count (tabs st) - 1) 0)) by lia.
    rewrite Z.max_r by lia.
    replace (QTabWidget.count (tabs st) - 1 - 1) with (QTabWidget.count (tabs st) - 2) by lia.
    simpl. split; [lia|].
    set (c := Z.min index (QTabWidget.count (tabs st) - 2)).
    destruct (QTabWidgetFacts.widget_in_range (tabs (closed index c w st)) c)
      as [b Hb]; [rewrite count_closed by done; lia|].
    exists b. split; [done|].
    by apply (update_ui_on_tab_change_refreshed c (closed index c w st) b).
  - left. split; [lia|].
    rewrite (proj2 (Z.eqb_neq _ _)) by lia.
    rewrite (proj2 (Z.ltb_ge _ _)) by lia. done.
Qed.

(** ** Pages and their indices *)

Lemma widget_lookup w i b :
  QTabWidget.widget w i = Some b ->
  0 <= i /\ (fst <$> QTabWidget.pages w) !! Z.to_nat i = Some b.
Proof.
  intros H. pose proof (QTabWidgetFacts.widget_Some_range _ _ _ H) as Hr.
  rewrite QTabWidgetFacts.widget_fmap in H.
  rewrite (proj2 (QTabWidgetFacts.validIndex_spec _ _) Hr) in H. split; [lia | done].
Qed.

Lemma lookup_widget w n b :
  (fst <$> QTabWidget.pages w) !! n = Some b ->
  QTabWidget.widget w (Z.of_nat n) = Some b.
Proof.
  intros H. rewrite QTabWidgetFacts.widget_fmap.
  assert (Hl : (n < List.length (QTabWidget.pages w))%nat).
  { apply lookup_lt_Some in H. by rewrite length_fmap in H. }
  rewrite (proj2 (QTabWidgetFacts.validIndex_spec _ _))
    by (unfold QTabWidget.count; lia).
  by rewrite Nat2Z.id.
Qed.

Lemma widget_elem_of w i b :
  QTabWidget.widget w i = Some b -> b ∈ fst <$> QTabWidget.pages w.
Proof. intros H. apply widget_lookup in H as [_ H]. by eapply list_elem_of_lookup_2. Qed.

Lemma elem_of_widget w b :
  b ∈ fst <$> QTabWidget.pages w -> exists i, QTabWidget.widget w i = Some b.
Proof.
  intros H. apply list_elem_of_lookup_1 in H as [n Hn].
  exists (Z.of_nat n). by apply lookup_widget.
Qed.

Lemma index_from_found b (l : list (obj * string)) i :
  QTabWidget.index_from b l i <> -1 -> b ∈ fst <$> l.
Proof.
  revert i. induction l as [|p l IH]; intros i H; simpl in *; [done|].
  case_decide as Hp.
  - rewrite <- Hp. apply list_elem_of_here.
  - apply list_elem_of_further. by apply (IH (i + 1)).
Qed.

Lemma indexOf_not_elem_of w b :
  b ∉ fst <$> QTabWidget.pages w -> QTabWidget.indexOf w b = -1.
Proof.
  intros H. destruct (decide (QTabWidget.indexOf w b = -1)) as [|Hne]; [done|].
  exfalso. apply H. by apply (index_from_found b _ 0).
Qed.

Lemma indexOf_minus_one w b :
  QTabWidget.indexOf w b = -1 -> b ∉ fst <$> QTabWidget.pages w.
Proof.
  intros H Hin. apply elem_of_widget in Hin as [i Hi].
  by apply (QTabWidgetFacts.indexOf_not_page w b H i).
Qed.

(** In a widget of distinct pages, a page sits at its [indexOf] only. *)
Lemma widget_indexOf_NoDup w i b :
  NoDup (fst <$> QTabWidget.pages w) ->
  QTabWidget.widget w i = Some b -> QTabWidget.indexOf w b = i.
Proof.
  intros Hnd Hw.
  destruct (QTabWidgetFacts.indexOf_widget _ _ _ Hw) as [Hi Hw'].
  apply widget_lookup in Hw as [H0 Hl]. apply widget_lookup in Hw' as [H0' Hl'].
  pose proof (NoDup_lookup _ _ _ _ Hnd Hl Hl'). lia.
Qed.

Lemma NoDup_not_elem_of_delete (l : list obj) n x :
  NoDup l -> l !! n = Some x -> x ∉ delete n l.
Proof.
  intros Hnd Hl Hin. apply list_elem_of_lookup_1 in Hin as [j Hj].
  rewrite list_lookup_delete in Hj. case_decide.
  - pose proof (NoDup_lookup _ _ _ _ Hnd Hl Hj). lia.
  - pose proof (NoDup_lookup _ _ _ _ Hnd Hl Hj). lia.
Qed.

Lemma NoDup_delete (l : list obj) n : NoDup l -> NoDup (delete n l).
Proof. intros H. eapply sublist_NoDup; [done | apply sublist_delete]. Qed.

(** Relabelling the one entry of [b] with the title of [b] makes every
    label right, when all the other labels are. *)
Lemma labels_alter (h : obj -> BrowserTab) (l : list (obj * string)) b n :
  NoDup (fst <$> l) ->
  (fst <$> l) !! n = Some b ->
  Forall (λ p, p.1 <> b -> p.2 = title (h p.1)) l ->
  Forall (λ p, p.2 = title (h p.1)) (alter (λ p, (p.1, title (h b))) n l).
Proof.
  intros Hnd Hn Hl. apply Forall_lookup. intros j p Hj.
  rewrite list_lookup_alter in Hj. case_decide as E.
  - subst j. rewrite list_lookup_fmap in Hn.
    destruct (l !! n) as [p0|]; [|done]. simpl in *.
    injection Hn as Hb. injection Hj as <-. simpl. by rewrite Hb.
  - rewrite Forall_lookup in Hl. apply (Hl j p Hj). intros Hb.
    assert (Hjb : (fst <$> l) !! j = Some b) by (by rewrite list_lookup_fmap, Hj; simpl; rewrite Hb).
    pose proof (NoDup_lookup _ _ _ _ Hnd Hn Hjb). done.
Qed.

(** ** The invariants, step by step *)

Lemma current_valid_same_tabs st st' :
  same_tabs st st' -> current_valid st -> current_valid st'.
Proof.
  intros F H. unfold current_valid in *.
  rewrite (same_tabs_count _ _ F). destruct F as (_&->&_). done.
Qed.

Lemma tabs_distinct_same_tabs st st' :
  same_tabs st st' -> tabs_distinct st -> tabs_distinct st'.
Proof.
  intros (E1&_&_&E4&E5) (H1&H2&H3). unfold tabs_distinct.
  rewrite E1, E4, E5. done.
Qed.

(** The titles shown depend on the tabs, the window title and the titles
    of the pages in the tabs, and on nothing else. *)
Lemma titles_shown_frame st st' :
  titles_shown st ->
  tabs st' = tabs st ->
  windowTitle st' = windowTitle st ->
  (forall x, x ∈ fst <$> QTabWidget.pages (tabs st) ->
     title (browsers st' x) = title (browsers st x)) ->
  titles_shown st'.
Proof.
  intros (HL&HW) Et Ew Eb. unfold titles_shown. rewrite Et, Ew. split.
  - apply Forall_lookup. intros j p Hj. rewrite Forall_lookup in HL.
    rewrite (HL j p Hj). symmetry. apply Eb.
    apply list_elem_of_fmap. exists p. split; [done|]. by eapply list_elem_of_lookup_2.
  - intros b Hb. rewrite (HW b Hb). f_equal. symmetry. apply Eb.
    by eapply widget_elem_of.
Qed.

Lemma titles_shown_refreshed b st :
  NoDup (fst <$> QTabWidget.pages (tabs st)) ->
  QTabWidget.currentWidget (tabs st) = Some b ->
  Forall (λ p, p.1 <> b -> p.2 = title (browsers st p.1)) (QTabWidget.pages (tabs st)) ->
  titles_shown (refreshed b st).
Proof.
  intros Hnd Hc Hl.
  destruct (QTabWidgetFacts.indexOf_widget _ _ _ Hc) as [Hi Hw].
  pose proof (QTabWidgetFacts.widget_Some_range _ _ _ Hw) as Hr.
  apply widget_lookup in Hw as [_ Hlk].
  split; simpl.
  - unfold QTabWidget.setTabText.
    rewrite (proj2 (QTabWidgetFacts.validIndex_spec _ _) Hr). simpl.
    by apply labels_alter.
  - intros b0. rewrite QTabWidgetFacts.setTabText_currentWidget, Hc.
    by intros [= <-].
Qed.

Lemma window_ok_created st :
  window_ok st -> window_ok (created st).
Proof.
  intros (Hv&(H1&H2&H3)&Ht). split; [done|]. split.
  - split; [done|]. simpl. split.
    + intros b Hb. specialize (H2 b Hb). lia.
    + intros b Hb. destruct (H3 b Hb). split; [lia | done].
  - apply (titles_shown_frame st); try done.
    intros x Hx. simpl. specialize (H2 x Hx).
    rewrite fn_lookup_insert_ne by lia. done.
Qed.

Lemma window_ok_opened b q label st :
  window_ok st ->
  b ∉ fst <$> QTabWidget.pages (tabs st) ->
  b ∉ deleteLater st ->
  (b < next_obj st)%nat ->
  window_ok (refreshed b (opened b q label st)).
Proof.
  intros (Hv&(H1&H2&H3)&(HL&HW)) Hb Hd Hlt.
  assert (Hp : fst <$> QTabWidget.pages (tabs (opened b q label st))
               = ((fst <$> QTabWidget.pages (tabs st)) ++ [b])%list).
  { simpl. by rewrite fmap_app. }
  assert (Hnd : NoDup (fst <$> QTabWidget.pages (tabs (opened b q label st)))).
  { rewrite Hp. apply NoDup_app. split; [done|]. split; [|apply NoDup_singleton].
    intros x Hx ->%list_elem_of_singleton. done. }
  split; [|split].
  - apply (current_valid_same_tabs _ _ (same_tabs_refreshed _ _)).
    unfold current_valid in *. simpl. unfold QTabWidget.count in *. simpl.
    rewrite length_app. simpl. lia.
  - apply (tabs_distinct_same_tabs _ _ (same_tabs_refreshed _ _)).
    split; [done|]. rewrite Hp. simpl. split.
    + intros x [Hx| ->%list_elem_of_singleton]%elem_of_app; [by apply H2 | done].
    + intros x Hx. destruct (H3 x Hx) as [Hx1 Hx2]. split; [done|].
      intros [Hin| ->%list_elem_of_singleton]%elem_of_app; done.
  - apply titles_shown_refreshed; [done | apply widget_snoc |].
    simpl. apply Forall_app. split.
    + apply Forall_lookup. intros j p Hj Hne. rewrite Forall_lookup in HL.
      rewrite (HL j p Hj). by rewrite fn_lookup_insert_ne.
    + apply Forall_singleton. simpl. done.
Qed.

Lemma widget_closed_lt index c w st j :
  0 <= index < QTabWidget.count (tabs st) ->
  0 <= j < index ->
  QTabWidget.widget (tabs (closed index c w st)) j = QTabWidget.widget (tabs st) j.
Proof.
  intros Hi Hj. unfold QTabWidget.widget.
  rewrite !(proj2 (QTabWidgetFacts.validIndex_spec _ _))
    by (rewrite ?count_closed by done; lia).
  simpl. rewrite list_lookup_delete_lt by lia. done.
Qed.

Lemma widget_closed_ge index c w st j :
  0 <= index < QTabWidget.count (tabs st) ->
  index <= j < QTabWidget.count (tabs st) - 1 ->
  QTabWidget.widget (tabs (closed index c w st)) j
  = QTabWidget.widget (tabs st) (j + 1).
Proof.
  intros Hi Hj. unfold QTabWidget.widget.
  rewrite !(proj2 (QTabWidgetFacts.validIndex_spec _ _))
    by (rewrite ?count_closed by done; lia).
  simpl. rewrite list_lookup_delete_ge by lia.
  replace (Z.to_nat (j + 1)) with (S (Z.to_nat j)) by lia. done.
Qed.

Lemma tabs_distinct_closed index c w st :
  tabs_distinct st ->
  QTabWidget.widget (tabs st) index = Some w ->
  tabs_distinct (closed index c w st).
Proof.
  intros (H1&H2&H3) Hw. pose proof (widget_elem_of _ _ _ Hw) as Hin.
  apply widget_lookup in Hw as [_ Hl].
  unfold tabs_distinct. simpl. rewrite list_fmap_delete. split; [|split].
  - by apply NoDup_delete.
  - intros b Hb. apply H2. by eapply list_elem_of_delete_inv.
  - intros b [->|Hb]%elem_of_cons.
    + split; [by apply H2 | by apply NoDup_not_elem_of_delete].
    + destruct (H3 b Hb) as [Hb1 Hb2]. split; [done|].
      intros Hd. apply Hb2. by eapply list_elem_of_delete_inv.
Qed.

Lemma window_ok_closed_after index w st :
  window_ok st ->
  QTabWidget.widget (tabs st) index = Some w ->
  QTabWidget.currentIndex (tabs st) < index ->
  window_ok (closed index (QTabWidget.currentIndex (tabs st)) w st).
Proof.
  intros (Hv&Hd&(HL&HW)) Hw Hlt.
  pose proof (QTabWidgetFacts.widget_Some_range _ _ _ Hw) as Hr.
  unfold current_valid in Hv.
  split; [|split].
  - unfold current_valid. rewrite count_closed by done. simpl. lia.
  - by apply tabs_distinct_closed.
  - split.
    + simpl. by apply Forall_delete.
    + intros b. unfold QTabWidget.currentWidget. simpl.
      change (QTabWidget.mk (delete (Z.to_nat index) (QTabWidget.pages (tabs st)))
                (QTabWidget.currentIndex (tabs st)))
        with (tabs (closed index (QTabWidget.currentIndex (tabs st)) w st)).
      rewrite widget_closed_lt by lia. apply HW.
Qed.

Lemma window_ok_closed_refreshed index c w b st :
  window_ok st ->
  QTabWidget.widget (tabs st) index = Some w ->
  0 <= c < QTabWidget.count (tabs st) - 1 ->
  QTabWidget.widget (tabs (closed index c w st)) c = Some b ->
  window_ok (refreshed b (closed index c w st)).
Proof.
  intros (Hv&Hd&(HL&HW)) Hw Hc Hb.
  pose proof (QTabWidgetFacts.widget_Some_range _ _ _ Hw) as Hr.
  pose proof (tabs_distinct_closed index c w st Hd Hw) as Hd'.
  split; [|split].
  - apply (current_valid_same_tabs _ _ (same_tabs_refreshed _ _)).
    unfold current_valid. rewrite count_closed by done. simpl. lia.
  - by apply (tabs_distinct_same_tabs _ _ (same_tabs_refreshed _ _)).
  - apply titles_shown_refreshed; [apply Hd' | done |].
    simpl. apply Forall_delete. eapply Forall_impl; [exact HL|]. by intros p ? _.
Qed.

Lemma window_ok_selected index b st :
  window_ok st ->
  QTabWidget.widget (tabs st) index = Some b ->
  window_ok (refreshed b (set_tabs (QTabWidget.mk (QTabWidget.pages (tabs st)) index) st)).
Proof.
  intros (Hv&Hd&(HL&HW)) Hw.
  pose proof (QTabWidgetFacts.widget_Some_range _ _ _ Hw) as Hr.
  split; [|split].
  - by apply (current_valid_same_tabs _ _ (same_tabs_refreshed _ _)).
  - by apply (tabs_distinct_same_tabs _ _ (same_tabs_refreshed _ _)).
  - apply titles_shown_refreshed; simpl.
    + apply Hd.
    + unfold QTabWidget.currentWidget. simpl. by erewrite QTabWidgetFacts.widget_ext.
    + eapply Forall_impl; [exact HL|]. by intros p ? _.
Qed.

Lemma window_ok_set_browsers h st :
  window_ok st ->
  (forall x, x ∈ fst <$> QTabWidget.pages (tabs st) ->
     title (h x) = title (browsers st x)) ->
  window_ok (set_browsers h st).
Proof.
  intros (Hv&Hd&Ht) Hh. split; [done|]. split; [done|].
  by apply (titles_shown_frame st).
Qed.

Lemma window_ok_set_url_bar e st : window_ok st -> window_ok (set_url_bar e st).
Proof.
  intros (Hv&Hd&Ht). split; [done|]. split; [done|].
  by apply (titles_shown_frame st).
Qed.

Lemma setUrl_window_ok b q st :
  window_ok st -> window_ok (state_of (setUrl b q st)).
Proof.
  intros H. unfold setUrl. unfold_M. simpl. apply window_ok_set_browsers; [done|].
  intros x _. destruct (decide (b = x)) as [->|Hne].
  - by rewrite fn_lookup_insert.
  - by rewrite fn_lookup_insert_ne.
Qed.

Lemma urlChanged_window_ok b q st :
  window_ok st ->
  exists st', urlChanged b q st = Return tt st' /\ window_ok st'.
Proof.
  intros H. unfold urlChanged. unfold_M. simpl.
  set (st1 := set_browsers _ st).
  assert (H1 : window_ok st1).
  { apply window_ok_set_browsers; [done|].
    intros x _. destruct (decide (b = x)) as [->|Hne].
    - by rewrite fn_lookup_insert.
    - by rewrite fn_lookup_insert_ne. }
  destruct (decide (Some b = QTabWidget.currentWidget (tabs st1))) as [E|E].
  - rewrite update_url_bar_active by done. eexists. split; [done|].
    by apply window_ok_set_url_bar.
  - rewrite update_url_bar_background by done. by exists st1.
Qed.

Lemma titleChanged_window_ok b new_title st :
  window_ok st ->
  exists st', titleChanged b new_title st = Return tt st' /\ window_ok st'.
Proof.
  intros (Hv&Hd&(HL&HW)). unfold titleChanged. unfold_M. simpl.
  set (h := <[b := mkBrowserTab (url (browsers st b)) new_title]> (browsers st)).
  set (st1 := set_browsers h st).
  assert (Hb : title (h b) = new_title) by (unfold h; by rewrite fn_lookup_insert).
  assert (Hx : forall x, x <> b -> title (h x) = title (browsers st x)).
  { intros x Hne. unfold h. by rewrite fn_lookup_insert_ne. }
  destruct (decide (QTabWidget.indexOf (tabs st1) b = -1)) as [Hi|Hi].
  { rewrite update_tab_title_not_page by done. exists st1. split; [done|].
    apply window_ok_set_browsers; [done|].
    intros x Hin. apply Hx. intros ->. by apply (indexOf_minus_one (tabs st) b). }
  assert (Hin : b ∈ fst <$> QTabWidget.pages (tabs st)).
  { by apply (index_from_found b _ 0). }
  destruct (elem_of_widget _ _ Hin) as [i0 Hw0].
  destruct (QTabWidgetFacts.indexOf_widget _ _ _ Hw0) as [_ Hw].
  pose proof (QTabWidgetFacts.widget_Some_range _ _ _ Hw) as Hr.
  apply widget_lookup in Hw as [_ Hlk].
  assert (HL' : Forall (λ p, p.2 = title (h p.1))
                  (QTabWidget.pages
                     (QTabWidget.setTabText (tabs st) (QTabWidget.indexOf (tabs st) b)
                        new_title))).
  { unfold QTabWidget.setTabText.
    rewrite (proj2 (QTabWidgetFacts.validIndex_spec _ _) Hr). simpl.
    rewrite <- Hb. apply labels_alter; [apply Hd | done |].
    eapply Forall_impl; [exact HL|]. intros p Hp Hne. simpl in *.
    by rewrite Hx. }
  assert (Hd' : forall t' wt, tabs_distinct
            (setWindowTitle wt (set_tabs (QTabWidget.setTabText (tabs st1)
                (QTabWidget.indexOf (tabs st1) b) t') st1))).
  { intros t' wt. destruct Hd as (D1&D2&D3). unfold tabs_distinct. simpl.
    rewrite QTabWidgetFacts.setTabText_pages. done. }
  assert (Hv' : forall t' wt, current_valid
            (setWindowTitle wt (set_tabs (QTabWidget.setTabText (tabs st1)
                (QTabWidget.indexOf (tabs st1) b) t') st1))).
  { intros t' wt. unfold current_valid in *. simpl.
    by rewrite QTabWidgetFacts.setTabText_count, QTabWidgetFacts.setTabText_currentIndex. }
  destruct (decide (Some b = QTabWidget.currentWidget (tabs st1))) as [E|E].
  - rewrite update_tab_title_active by done. eexists. split; [done|].
    split; [apply Hv'|]. split; [apply Hd'|]. split; [exact HL'|].
    simpl. intros b0. rewrite QTabWidgetFacts.setTabText_currentWidget.
    simpl in E. rewrite <- E. intros [= <-]. by rewrite Hb.
  - rewrite update_tab_title_background by done. eexists. split; [done|].
    split; [apply (Hv' new_title (windowTitle st))|].
    split; [apply (Hd' new_title (windowTitle st))|]. split; [exact HL'|].
    simpl. intros b0. rewrite QTabWidgetFacts.setTabText_currentWidget.
    intros Hb0. rewrite (HW b0 Hb0). rewrite Hx; [done|].
    intros ->. simpl in E. congruence.
Qed.

Lemma current_widget_exists st :
  current_valid st -> exists b, QTabWidget.currentWidget (tabs st) = Some b.
Proof. intros H. by apply QTabWidgetFacts.widget_in_range. Qed.

(** A new view opened as a tab: the shape shared by the new-tab button,
    [createWindow] and the [addTab] operation. *)
Lemma new_tab_window_ok q st :
  window_ok st ->
  add_new_tab (next_obj st) q "New Tab" (created st)
  = Return tt
      (refreshed (next_obj st)
         (opened (next_obj st)
            (match q with Some q => q | None => QUrl.mk DEFAULT_URL end)
            "New Tab" (created st)))
  /\ window_ok
       (refreshed (next_obj st)
          (opened (next_obj st)
             (match q with Some q => q | None => QUrl.mk DEFAULT_URL end)
             "New Tab" (created st))).
Proof.
  intros H. pose proof (window_ok_created st H) as Hc.
  split; [apply add_new_tab_opened, Hc|].
  destruct H as (_&(_&H2&H3)&_).
  apply window_ok_opened; simpl; [done | | | lia].
  - intros Hin. specialize (H2 _ Hin). lia.
  - intros Hin. destruct (H3 _ Hin). lia.
Qed.

Lemma close_tab_window_ok index st :
  window_ok st ->
  window_ok (state_of (close_tab index st))
  /\ (0 <= index < QTabWidget.count (tabs st) ->
      exists st', close_tab index st = Return tt st').
Proof.
  intros H.
  destruct (Z.lt_ge_cases (QTabWidget.count (tabs st)) 2) as [Hlt|Hge].
  { rewrite close_tab_last_tab by done. split; [done | by eexists]. }
  destruct (QTabWidget.widget (tabs st) index) as [w|] eqn:Hw.
  - destruct (close_tab_closed index st w Hge Hw (proj1 H))
      as [(Hc&->)|(Hc&Hr&b&Hb&->)]; simpl.
    + split; [by apply window_ok_closed_after | by eexists].
    + split; [by apply window_ok_closed_refreshed | by eexists].
  - rewrite close_tab_no_widget by done. split; [done|].
    intros Hr. destruct (QTabWidgetFacts.widget_in_range _ _ Hr) as [b Hb].
    congruence.
Qed.

Lemma handle_window_ok e st :
  window_ok st ->
  window_ok (state_of (handle e st))
  /\ (returns_on st e -> exists st', handle e st = Return tt st').
Proof.
  intros H. destruct e as [|index|index|text| | |b q|b t|parent type requested]; simpl.
  - destruct (new_tab_window_ok None st H) as [E Hok].
    unfold new_tab_btn_clicked, BrowserTab__init__. unfold_M.
    fold (created st). rewrite E. split; [done | by eexists].
  - by apply close_tab_window_ok.
  - destruct (QTabWidget.widget (tabs st) index) as [b|] eqn:Hw.
    + destruct (decide (index = QTabWidget.currentIndex (tabs st))) as [E|E].
      * rewrite tabs_setCurrentIndex_same by auto. split; [done | by eexists].
      * rewrite (tabs_setCurrentIndex_other index st b) by done.
        split; [by apply window_ok_selected | by eexists].
    + rewrite tabs_setCurrentIndex_same; [split; [done | by eexists]|].
      right. destruct (decide (0 <= index < QTabWidget.count (tabs st))) as [Hr|Hr]; [|lia].
      destruct (QTabWidgetFacts.widget_in_range _ _ Hr) as [b Hb]. congruence.
  - unfold_M. simpl. split; [by apply window_ok_set_url_bar | by eexists].
  - destruct (current_widget_exists st (proj1 H)) as [b Hb].
    rewrite (navigate_to_url_current st b Hb).
    split; [by apply setUrl_window_ok | by eexists].
  - destruct (current_widget_exists st (proj1 H)) as [b Hb].
    unfold navigate_home. unfold_M. rewrite Hb.
    split; [by apply (setUrl_window_ok b (QUrl.mk HOME_URL) st) | by eexists].
  - destruct (urlChanged_window_ok b q st H) as (st'&->&Hok).
    split; [done | by eexists].
  - destruct (titleChanged_window_ok b t st H) as (st'&->&Hok).
    split; [done | by eexists].
  - split; [done | intros []].
Qed.

Lemma startup_window_ok : window_ok startup.
Proof.
  split; [|split].
  - assert (Hi : QTabWidget.currentIndex (tabs startup) = 0) by (vm_compute; reflexivity).
    assert (Hn : QTabWidget.count (tabs startup) = 1) by (vm_compute; reflexivity).
    unfold current_valid. rewrite Hi, Hn. lia.
  - assert (Hp : fst <$> QTabWidget.pages (tabs startup) = [0%nat]) by (vm_compute; reflexivity).
    assert (Hn : next_obj startup = 1%nat) by (vm_compute; reflexivity).
    assert (Hd : deleteLater startup = []) by (vm_compute; reflexivity).
    unfold tabs_distinct. rewrite Hp, Hn, Hd. split; [apply NoDup_singleton|]. split.
    + intros b ->%list_elem_of_singleton. lia.
    + intros b Hb. by apply elem_of_nil in Hb.
  - assert (Hp : QTabWidget.pages (tabs startup) = [(0%nat, "")]) by (vm_compute; reflexivity).
    assert (Ht : title (browsers startup 0%nat) = "") by (vm_compute; reflexivity).
    assert (Hw : windowTitle startup = "Python Browser - ") by (vm_compute; reflexivity).
    assert (Hc : QTabWidget.currentWidget (tabs startup) = Some 0%nat) by (vm_compute; reflexivity).
    split.
    + rewrite Hp. apply Forall_singleton. symmetry. exact Ht.
    + intros b. rewrite Hc. intros [= <-]. by rewrite Hw, Ht.
Qed.

Lemma run_events_window_ok events st :
  window_ok st -> window_ok (run_events events st).
Proof.
  revert st. induction events as [|e events IH]; intros st H; [done|].
  simpl. apply IH. by apply handle_window_ok.
Qed.

(** ** Address-bar texts *)

Lemma prefix_char a c s :
  String.prefix (String a "") (String c s) = if ascii_dec a c then true else false.
Proof.
  change (String.prefix (String a "") (String c s))
    with (if ascii_dec a c then String.prefix "" s else false).
  destruct (ascii_dec a c); [by destruct s | done].
Qed.

Lemma before_colon_no_colon s :
  str_in ":" s = false -> QUrl.before_colon s = None.
Proof.
  induction s as [|c s IH]; [done|].
  cbn [str_in]. rewrite prefix_char.
  destruct (ascii_dec ":" c) as [<-|Hc]; [done|].
  rewrite orb_false_l. intros H. cbn [QUrl.before_colon].
  destruct (Ascii.eqb_spec c "#"); [done|].
  destruct (Ascii.eqb_spec c "?"); [done|].
  destruct (Ascii.eqb_spec c ":"); [congruence|].
  by rewrite IH.
Qed.

Lemma scheme_char_no_delimiter c :
  (QUrl.isAsciiLower c || QUrl.isAsciiUpper c || QUrl.isAsciiDigit c
   || Ascii.eqb c "+" || Ascii.eqb c "-" || Ascii.eqb c ".") = true ->
  Ascii.eqb c "#" = false /\ Ascii.eqb c "?" = false /\ Ascii.eqb c ":" = false.
Proof.
  destruct c as [[] [] [] [] [] [] [] []]; vm_compute; intros H;
    (discriminate H || (repeat split; reflexivity)).
Qed.

Lemma before_colon_scheme s rest :
  QUrl.scheme_tail_ok s = true ->
  QUrl.before_colon (s +:+ ":" +:+ rest) = Some s.
Proof.
  induction s as [|c s IH]; [done|].
  cbn [QUrl.scheme_tail_ok]. intros [Hc Hs]%andb_true_iff.
  destruct (scheme_char_no_delimiter c Hc) as (E1&E2&E3).
  change (String c s +:+ ":" +:+ rest) with (String c (s +:+ ":" +:+ rest)).
  cbn [QUrl.before_colon]. rewrite E1, E2, E3. by rewrite IH.
Qed.




Lemma titles_shown_label st i b :
  titles_shown st ->
  QTabWidget.widget (tabs st) i = Some b ->
  shown_label st i = title (browsers st b).
Proof.
  intros (HL&_) Hw. pose proof (QTabWidgetFacts.widget_Some_range _ _ _ Hw) as Hr.
  unfold shown_label, QTabWidget.tabText. unfold QTabWidget.widget in Hw.
  rewrite (proj2 (QTabWidgetFacts.validIndex_spec _ _) Hr) in *.
  destruct (QTabWidget.pages (tabs st) !! Z.to_nat i) as [p|] eqn:Hp; [|done].
  simpl in *. injection Hw as <-. rewrite Forall_lookup in HL. by apply (HL _ _ Hp).
Qed.

Lemma index_from_app_fresh b (l : list (obj * string)) label i :
  b ∉ fst <$> l ->
  QTabWidget.index_from b (l ++ [(b, label)])%list i = i + Z.of_nat (List.length l).
Proof.
  revert i. induction l as [|p l IH]; intros i Hb; simpl.
  - rewrite decide_True by done. lia.
  - rewrite decide_False.
    + rewrite IH; [lia|]. intros Hin. apply Hb. by apply list_elem_of_further.
    + intros E. apply Hb. rewrite <- E. apply list_elem_of_here.
Qed.

Lemma close_tab_removed index st w :
  2 <= QTabWidget.count (tabs st) ->
  QTabWidget.widget (tabs st) index = Some w ->
  exists st',
    close_tab index st = Return tt st'
    /\ fst <$> QTabWidget.pages (tabs st')
       = delete (Z.to_nat index) (fst <$> QTabWidget.pages (tabs st))
    /\ deleteLater st' = w :: deleteLater st
    /\ browsers st' = browsers st
    /\ next_obj st' = next_obj st.
Proof.
  intros H Hw. pose proof (QTabWidgetFacts.widget_Some_range _ _ _ Hw) as Hr.
  unfold close_tab, widget_deleteLater. unfold_M.
  rewrite (proj2 (Z.ltb_ge _ _) H), Hw.
  set (st1 := mkMainWindow _ _ _ _ _ _).
  destruct (tabs_removeTab_returns index st1) as (st'&R&F).
  rewrite R. exists st'. split; [done|].
  destruct F as (F1&_&F3&F4&F5). simpl in *.
  rewrite F1, removeTab_pages, (proj2 (QTabWidgetFacts.validIndex_spec _ _) Hr).
  by rewrite list_fmap_delete.
Qed.

(** ** Properties of the running window *)

(** X1. After startup and any sequence of events (clicks, keys, tab
    selections, engine signals and new-window requests), the current
    index points at a tab: there is always a current widget. *)
Theorem current_tab_always_exists (events : list Event) :
  let st := run_events events startup in
  0 <= QTabWidget.currentIndex (tabs st) < QTabWidget.count (tabs st)
  /\ exists b, QTabWidget.currentWidget (tabs st) = Some b.
Proof.
  intros st.
  pose proof (run_events_window_ok events startup startup_window_ok) as (Hv&_).
  split; [exact Hv | by apply current_widget_exists].
Qed.



(** X3. In a window reached from startup, [navigate_home] returns and
    asks the current tab to load the home address; the title of that tab,
    every other view, the tabs and the window title are left alone. *)
Theorem navigate_home_loads_home (events : list Event) :
  let st := run_events events startup in
  exists b st',
    QTabWidget.currentWidget (tabs st) = Some b
    /\ navigate_home st = Return tt st'
    /\ url (browsers st' b) = QUrl.mk "https://www.google.com"
    /\ title (browsers st' b) = title (browsers st b)
    /\ (forall x, x <> b -> browsers st' x = browsers st x)
    /\ tabs st' = tabs st
    /\ windowTitle st' = windowTitle st.
Proof.
  intros st.
  pose proof (run_events_window_ok events startup startup_window_ok) as (Hv&_).
  destruct (current_widget_exists _ Hv) as [b Hb]. fold st in Hb.
  exists b. eexists. split; [exact Hb|].
  unfold navigate_home, setUrl. unfold_M. rewrite Hb. split; [reflexivity|].
  simpl. rewrite fn_lookup_insert. repeat split.
  intros x Hx. by rewrite fn_lookup_insert_ne.
Qed.

(** X4. With two tabs or more, [close_tab] on the index of a tab returns,
    takes exactly that tab out and keeps the others in their order, hands
    the closed widget to [deleteLater], and touches no view. *)
Theorem close_tab_removes_that_tab (index : Z) (st : MainWindow) (w : obj) :
  2 <= QTabWidget.count (tabs st) ->
  QTabWidget.widget (tabs st) index = Some w ->
  exists st',
    close_tab index st = Return tt st'
    /\ fst <$> QTabWidget.pages (tabs st')
       = delete (Z.to_nat index) (fst <$> QTabWidget.pages (tabs st))
    /\ QTabWidget.count (tabs st') = QTabWidget.count (tabs st) - 1
    /\ deleteLater st' = w :: deleteLater st
    /\ browsers st' = browsers st.
Proof.
  intros H Hw. pose proof (QTabWidgetFacts.widget_Some_range _ _ _ Hw) as Hr.
  destruct (close_tab_removed index st w H Hw) as (st'&R&P&D&B&_).
  exists st'. repeat split; try done.
  unfold QTabWidget.count in *.
  rewrite <- (length_fmap fst (QTabWidget.pages (tabs st'))), P.
  rewrite length_delete, length_fmap; [lia|].
  apply lookup_lt_is_Some_2. rewrite length_fmap. lia.
Qed.

Lemma close_tab_removes_that_tab_witness :
  exists st',
    close_tab 0 two_tabs = Return tt st'
    /\ fst <$> QTabWidget.pages (tabs st') = [1%nat]
    /\ deleteLater st' = [0%nat].
Proof.
  assert (C : QTabWidget.count (tabs two_tabs) = 2) by (vm_compute; reflexivity).
  assert (W : QTabWidget.widget (tabs two_tabs) 0 = Some 0%nat) by (vm_compute; reflexivity).
  assert (P : fst <$> QTabWidget.pages (tabs two_tabs) = [0%nat; 1%nat])
    by (vm_compute; reflexivity).
  assert (D : deleteLater two_tabs = []) by (vm_compute; reflexivity).
  destruct (close_tab_removes_that_tab 0 two_tabs 0%nat) as (st'&R&P'&_&D'&_).
  - rewrite C. lia.
  - exact W.
  - exists st'. split; [exact R|]. split.
    + etransitivity; [exact P'|]. rewrite P. reflexivity.
    + rewrite D', D. reflexivity.
Defined.

(** X5. Closing a tab other than the current one returns and keeps the
    same widget current: the current index follows the current tab when a
    tab before it goes away. *)
Theorem close_other_tab_keeps_current (index : Z) (st : MainWindow) :
  current_valid st ->
  0 <= index < QTabWidget.count (tabs st) ->
  index <> QTabWidget.currentIndex (tabs st) ->
  exists st',
    close_tab index st = Return tt st'
    /\ QTabWidget.currentWidget (tabs st') = QTabWidget.currentWidget (tabs st)
    /\ QTabWidget.currentIndex (tabs st')
       = if decide (index < QTabWidget.currentIndex (tabs st))
         then QTabWidget.currentIndex (tabs st) - 1
         else QTabWidget.currentIndex (tabs st).
Proof.
  intros Hv Hr Hne. unfold current_valid in Hv.
  destruct (QTabWidgetFacts.widget_in_range _ _ Hr) as [w Hw].
  destruct (close_tab_closed index st w ltac:(lia) Hw Hv)
    as [(Hc&R)|(Hc&Hrc&b&Hb&R)].
  - eexists. split; [exact R|]. split.
    + unfold QTabWidget.currentWidget. simpl.
      change (QTabWidget.mk (delete (Z.to_nat index) (QTabWidget.pages (tabs st)))
                (QTabWidget.currentIndex (tabs st)))
        with (tabs (closed index (QTabWidget.currentIndex (tabs st)) w st)).
      by rewrite widget_closed_lt by lia.
    + simpl. by rewrite decide_False by lia.
  - rewrite decide_False in Hrc, Hb, R by done.
    eexists. split; [exact R|]. split.
    + rewrite (same_tabs_currentWidget _ _ (same_tabs_refreshed _ _)).
      unfold QTabWidget.currentWidget. simpl.
      change (QTabWidget.mk (delete (Z.to_nat index) (QTabWidget.pages (tabs st)))
                (QTabWidget.currentIndex (tabs st) - 1))
        with (tabs (closed index (QTabWidget.currentIndex (tabs st) - 1) w st)).
      rewrite widget_closed_ge by lia. f_equal. lia.
    + simpl. rewrite QTabWidgetFacts.setTabText_currentIndex. simpl.
      by rewrite decide_True by lia.
Qed.

Lemma close_other_tab_keeps_current_witness :
  exists st',
    close_tab 0 two_tabs = Return tt st'
    /\ QTabWidget.currentWidget (tabs st') = Some 1%nat
    /\ QTabWidget.currentIndex (tabs st') = 0.
Proof.
  assert (C : QTabWidget.count (tabs two_tabs) = 2) by (vm_compute; reflexivity).
  assert (I : QTabWidget.currentIndex (tabs two_tabs) = 1) by (vm_compute; reflexivity).
  assert (W : QTabWidget.currentWidget (tabs two_tabs) = Some 1%nat)
    by (vm_compute; reflexivity).
  destruct (close_other_tab_keeps_current 0 two_tabs) as (st'&R&Hw&Hi).
  - unfold current_valid. rewrite C, I. lia.
  - rewrite C. lia.
  - rewrite I. lia.
  - exists st'. split; [exact R|]. rewrite Hw, Hi, W, I. split; reflexivity.
Defined.

(** X6. The slot of [currentChanged] guards only the index [-1]: called
    with any other index that is no tab, it raises [AttributeError] and
    changes nothing. *)
Theorem update_ui_on_tab_change_guards_only_minus_one (index : Z) (st : MainWindow) :
  index <> -1 ->
  index < 0 \/ QTabWidget.count (tabs st) <= index ->
  update_ui_on_tab_change index st = Raise AttributeError st.
Proof.
  intros Hne Hr. unfold update_ui_on_tab_change. rewrite decide_True by done.
  unfold_M. by rewrite QTabWidgetFacts.widget_out_of_range.
Qed.

Lemma update_ui_on_tab_change_guards_only_minus_one_witness :
  update_ui_on_tab_change (-2) two_tabs = Raise AttributeError two_tabs
  /\ update_ui_on_tab_change 2 two_tabs = Raise AttributeError two_tabs.
Proof.
  assert (C : QTabWidget.count (tabs two_tabs) = 2) by (vm_compute; reflexivity).
  split.
  - apply (update_ui_on_tab_change_guards_only_minus_one (-2) two_tabs); lia.
  - apply (update_ui_on_tab_change_guards_only_minus_one 2 two_tabs); [lia|].
    rewrite C. lia.
Defined.


(** X9. A text that starts like a scheme, a letter followed by letters,
    digits, ["+"], ["-"] or ["."] and then a colon, is taken as a URL
    with that scheme and loaded as typed: a host with a port, such as
    localhost:8080, gets no ["https://"] in front. *)
Theorem typed_url_keeps_scheme_like_text (s rest : string) :
  QUrl.scheme_ok s = true ->
  QUrl.scheme (QUrl.mk (s +:+ ":" +:+ rest)) = QUrl.lowercase s
  /\ typed_url (s +:+ ":" +:+ rest) = QUrl.mk (s +:+ ":" +:+ rest).
Proof.
  intros H.
  assert (E : QUrl.scheme (QUrl.mk (s +:+ ":" +:+ rest)) = QUrl.lowercase s).
  { unfold QUrl.scheme. simpl QUrl.text.
    rewrite before_colon_scheme, H; [done|].
    destruct s as [|c s]; [done|]. cbn [QUrl.scheme_ok] in H.
    apply andb_true_iff in H as [Hc Hs]. cbn [QUrl.scheme_tail_ok].
    rewrite Hs, andb_true_r.
    by destruct (QUrl.isAsciiLower c), (QUrl.isAsciiUpper c). }
  split; [exact E|]. apply typed_url_scheme. rewrite E.
  by destruct s.
Qed.

Lemma typed_url_keeps_scheme_like_text_witness :
  typed_url "localhost:8080" = QUrl.mk "localhost:8080".
Proof.
  apply (typed_url_keeps_scheme_like_text "localhost" "8080"). reflexivity.
Defined.

(** X10. A text without a colon is never loaded as typed: the URL built
    from it has the scheme https. *)
Theorem typed_url_without_colon_is_https (text : string) :
  str_in ":" text = false ->
  QUrl.scheme (typed_url text) = "https"
  /\ (typed_url text = QUrl.mk ("https://" +:+ text)
      \/ typed_url text = QUrl.mk ("https://www.google.com/search?q=" +:+ text)).
Proof.
  intros H.
  assert (E : QUrl.scheme (QUrl.mk text) = "").
  { unfold QUrl.scheme. simpl. by rewrite before_colon_no_colon. }
  rewrite typed_url_no_scheme by done.
  destruct (str_in "." text); split; auto.
Qed.

Lemma typed_url_without_colon_is_https_witness :
  QUrl.scheme (typed_url "rocq prover") = "https".
Proof.
  apply (typed_url_without_colon_is_https "rocq prover"). reflexivity.
Defined.

(** X11. When [add_new_tab] is given a view that is no tab yet, the
    [label] it is called with does not last: before the call returns, the
    slot of [currentChanged] has shown the new tab, so its label is the
    title of its page, the window title carries that title, and the
    address bar holds the string of the URL it was asked to load, cut at
    the length a line edit holds. *)
Theorem add_new_tab_shows_new_tab (browser : obj) (q : option QUrl.t)
    (label : string) (st : MainWindow) :
  current_valid st ->
  browser ∉ fst <$> QTabWidget.pages (tabs st) ->
  exists st',
    add_new_tab browser q label st = Return tt st'
    /\ shown_label st' (QTabWidget.count (tabs st)) = title (browsers st browser)
    /\ windowTitle st' = "Python Browser - " +:+ title (browsers st browser)
    /\ shown_url st'
       = QLineEdit.shown
           (QUrl.toString (match q with Some q => q | None => QUrl.mk DEFAULT_URL end)).
Proof.
  intros Hv Hb. rewrite add_new_tab_opened by done. eexists. split; [done|].
  unfold shown_label, shown_url. simpl. rewrite fn_lookup_insert. simpl.
  split; [|done].
  unfold QTabWidget.indexOf. simpl. rewrite index_from_app_fresh by done.
  rewrite Z.add_0_l. fold (QTabWidget.count (tabs st)).
  apply QTabWidgetFacts.tabText_setTabText.
  unfold QTabWidget.count. simpl. rewrite length_app. simpl. lia.
Qed.

Lemma add_new_tab_shows_new_tab_witness :
  exists st',
    add_new_tab 5%nat None "New Tab" startup = Return tt st'
    /\ shown_label st' 1 = ""
    /\ windowTitle st' = "Python Browser - ".
Proof.
  assert (C : QTabWidget.count (tabs startup) = 1) by (vm_compute; reflexivity).
  assert (I : QTabWidget.currentIndex (tabs startup) = 0) by (vm_compute; reflexivity).
  assert (P : fst <$> QTabWidget.pages (tabs startup) = [0%nat]) by (vm_compute; reflexivity).
  assert (T : title (browsers startup 5%nat) = "") by (vm_compute; reflexivity).
  destruct (add_new_tab_shows_new_tab 5%nat None "New Tab" startup) as (st'&R&L&U&_).
  - unfold current_valid. rewrite C, I. lia.
  - rewrite P. intros Hin%list_elem_of_singleton. discriminate.
  - exists st'. split; [exact R|]. rewrite C, T in L. rewrite T in U.
    split; [exact L | exact U].
Defined.

(** X12. In a window reached from startup, every tab is labelled with the
    title of its page, and the window title is "Python Browser - "
    followed by the title of the current page. *)
Theorem titles_always_shown (events : list Event) :
  let st := run_events events startup in
  (forall i b, QTabWidget.widget (tabs st) i = Some b ->
     shown_label st i = title (browsers st b))
  /\ exists b,
       QTabWidget.currentWidget (tabs st) = Some b
       /\ windowTitle st = "Python Browser - " +:+ title (browsers st b).
Proof.
  intros st.
  pose proof (run_events_window_ok events startup startup_window_ok) as (Hv&_&Ht).
  fold st in Hv, Ht. split.
  - intros i b. by apply titles_shown_label.
  - destruct (current_widget_exists _ Hv) as [b Hb]. exists b.
    split; [done|]. by apply Ht.
Qed.

(** X13. In a window reached from startup, no widget is a tab twice, and a
    widget handed to [deleteLater] is no tab any more. *)
Theorem tabs_always_distinct_and_alive (events : list Event) :
  let st := run_events events startup in
  NoDup (fst <$> QTabWidget.pages (tabs st))
  /\ forall b i, b ∈ deleteLater st -> QTabWidget.widget (tabs st) i <> Some b.
Proof.
  intros st.
  pose proof (run_events_window_ok events startup startup_window_ok) as (_&(H1&_&H3)&_).
  fold st in H1, H3. split; [done|].
  intros b i Hb Hw. destruct (H3 b Hb) as [_ Hn]. apply Hn.
  by eapply widget_elem_of.
Qed.

(** X14. In a window reached from startup, once a tab has been closed the
    signals its page still sends change nothing: neither slot finds the
    closed widget among the tabs. *)
Theorem closed_tab_signals_ignored (events : list Event) (index : Z) (w : obj)
    (q : QUrl.t) (new_title : string) :
  let st := run_events events startup in
  2 <= QTabWidget.count (tabs st) ->
  QTabWidget.widget (tabs st) index = Some w ->
  exists st',
    close_tab index st = Return tt st'
    /\ update_url_bar q (Some w) st' = Return tt st'
    /\ update_tab_title new_title w st' = Return tt st'.
Proof.
  intros st H2 Hw.
  pose proof (run_events_window_ok events startup startup_window_ok) as Hok.
  fold st in Hok.
  destruct (close_tab_removed index st w H2 Hw) as (st'&R&_&D&_).
  pose proof (proj1 (close_tab_window_ok index st Hok)) as Hok'.
  rewrite R in Hok'. simpl in Hok'. destruct Hok' as (_&(_&_&H3)&_).
  assert (Hn : w ∉ fst <$> QTabWidget.pages (tabs st')).
  { apply H3. rewrite D. apply list_elem_of_here. }
  exists st'. split; [done|]. split.
  - apply update_url_bar_background. intros E. apply Hn.
    symmetry in E. by eapply widget_elem_of.
  - apply update_tab_title_not_page. by apply indexOf_not_elem_of.
Qed.

Lemma closed_tab_signals_ignored_witness :
  exists st',
    close_tab 0 (run_events [NewTabClicked] startup) = Return tt st'
    /\ update_tab_title "Late" 0%nat st' = Return tt st'.
Proof.
  assert (C : QTabWidget.count (tabs (run_events [NewTabClicked] startup)) = 2)
    by (vm_compute; reflexivity).
  assert (W : QTabWidget.widget (tabs (run_events [NewTabClicked] startup)) 0 = Some 0%nat)
    by (vm_compute; reflexivity).
  destruct (closed_tab_signals_ignored [NewTabClicked] 0 0%nat (QUrl.mk "") "Late")
    as (st'&R&_&T).
  - rewrite C. lia.
  - exact W.
  - exists st'. split; [exact R | exact T].
Defined.

(** X15. The events of a page, of the address bar and of the home button
    never open, close, reorder or select a tab, whatever the window and
    whether the handler returns or raises. *)
Theorem page_events_keep_tabs (e : Event) (st : MainWindow) :
  page_event e = true ->
  let st' := state_of (handle e st) in
  fst <$> QTabWidget.pages (tabs st') = fst <$> QTabWidget.pages (tabs st)
  /\ QTabWidget.currentIndex (tabs st') = QTabWidget.currentIndex (tabs st)
  /\ next_obj st' = next_obj st
  /\ deleteLater st' = deleteLater st.
Proof.
  intros He. destruct e as [| | |text| | |b q|b t|]; try discriminate He; simpl.
  - done.
  - unfold navigate_to_url, setUrl. unfold_M.
    by destruct (QTabWidget.currentWidget (tabs st)).
  - unfold navigate_home, setUrl. unfold_M.
    by destruct (QTabWidget.currentWidget (tabs st)).
  - unfold urlChanged. unfold_M. simpl.
    set (st1 := set_browsers _ st).
    destruct (update_url_bar_same_tabs q (Some b) st1) as (st'&->&(F1&F2&_&F4&F5)).
    done.
  - unfold titleChanged. unfold_M. simpl.
    set (st1 := set_browsers _ st).
    destruct (update_tab_title_same_tabs t b st1) as (st'&->&(F1&F2&_&F4&F5)).
    done.
Qed.

Lemma page_events_keep_tabs_witness :
  fst <$> QTabWidget.pages (tabs (state_of (handle (TitleChanged 0%nat "News") two_tabs)))
  = fst <$> QTabWidget.pages (tabs two_tabs).
Proof.
  apply (page_events_keep_tabs (TitleChanged 0%nat "News") two_tabs). reflexivity.
Defined.

(** X16. Closing the current tab makes its right neighbour current, or,
    when the closed tab was the last one, the tab before it. *)
Theorem close_current_tab_selects_neighbour (st : MainWindow) :
  2 <= QTabWidget.count (tabs st) ->
  current_valid st ->
  let cur := QTabWidget.currentIndex (tabs st) in
  exists st',
    close_tab cur st = Return tt st'
    /\ QTabWidget.currentWidget (tabs st')
       = if decide (cur + 1 < QTabWidget.count (tabs st))
         then QTabWidget.widget (tabs st) (cur + 1)
         else QTabWidget.widget (tabs st) (cur - 1).
Proof.
  intros H2 Hv cur. unfold current_valid in Hv. fold cur in Hv.
  destruct (QTabWidgetFacts.widget_in_range _ _ Hv) as [w Hw].
  destruct (close_tab_closed cur st w H2 Hw Hv) as [(Hc&_)|(_&Hrc&b&Hb&R)].
  { fold cur in Hc. lia. }
  fold cur in Hrc, Hb, R. rewrite decide_True in Hrc, Hb, R by done.
  eexists. split; [exact R|].
  rewrite (same_tabs_currentWidget _ _ (same_tabs_refreshed _ _)).
  set (c := Z.min cur (QTabWidget.count (tabs st) - 2)) in *.
  unfold QTabWidget.currentWidget. simpl.
  change (QTabWidget.mk (delete (Z.to_nat cur) (QTabWidget.pages (tabs st))) c)
    with (tabs (closed cur c w st)).
  case_decide.
  - replace c with cur by lia. by rewrite widget_closed_ge by lia.
  - replace c with (cur - 1) by lia. by rewrite widget_closed_lt by lia.
Qed.

Lemma close_current_tab_selects_neighbour_witness :
  exists st',
    close_tab 1 two_tabs = Return tt st'
    /\ QTabWidget.currentWidget (tabs st') = Some 0%nat.
Proof.
  assert (C : QTabWidget.count (tabs two_tabs) = 2) by (vm_compute; reflexivity).
  assert (I : QTabWidget.currentIndex (tabs two_tabs) = 1) by (vm_compute; reflexivity).
  assert (W : QTabWidget.widget (tabs two_tabs) 0 = Some 0%nat) by (vm_compute; reflexivity).
  destruct (close_current_tab_selects_neighbour two_tabs) as (st'&R&Hw).
  - rewrite C. lia.
  - unfold current_valid. rewrite C, I. lia.
  - rewrite I, C in *. exists st'. split; [exact R|].
    rewrite Hw. rewrite decide_False by lia. exact W.
Defined.

Lemma delete_snoc {A : Type} (l : list A) x : delete (List.length l) (l ++ [x])%list = l.
Proof. induction l as [|a l IH]; simpl; [done | by rewrite IH]. Qed.

(** X17. Opening a tab with the new-tab button and closing it again gives
    back the tabs there were, but not the tab one came from: the last of
    those tabs is current afterwards, and the view just created is queued
    for deletion. *)
Theorem new_tab_then_close_selects_last_tab (st : MainWindow) :
  current_valid st ->
  let st1 := state_of (new_tab_btn_clicked st) in
  exists st2,
    close_tab (QTabWidget.count (tabs st)) st1 = Return tt st2
    /\ fst <$> QTabWidget.pages (tabs st2) = fst <$> QTabWidget.pages (tabs st)
    /\ QTabWidget.currentIndex (tabs st2) = QTabWidget.count (tabs st) - 1
    /\ deleteLater st2 = next_obj st :: deleteLater st.
Proof.
  intros Hv st1. unfold current_valid in Hv.
  assert (E1 : st1 = refreshed (next_obj st)
                  (opened (next_obj st) (QUrl.mk DEFAULT_URL) "New Tab" (created st))).
  { unfold st1, new_tab_btn_clicked, BrowserTab__init__. unfold_M.
    fold (created st). by rewrite (add_new_tab_opened _ None _ (created st)). }
  assert (P1 : fst <$> QTabWidget.pages (tabs st1)
               = ((fst <$> QTabWidget.pages (tabs st)) ++ [next_obj st])%list).
  { rewrite E1. simpl. rewrite QTabWidgetFacts.setTabText_pages. simpl.
    by rewrite fmap_app. }
  assert (C1 : QTabWidget.count (tabs st1) = QTabWidget.count (tabs st) + 1).
  { unfold QTabWidget.count.
    rewrite <- (length_fmap fst (QTabWidget.pages (tabs st1))), P1.
    rewrite length_app, length_fmap. simpl. lia. }
  assert (I1 : QTabWidget.currentIndex (tabs st1) = QTabWidget.count (tabs st)).
  { rewrite E1. simpl. by rewrite QTabWidgetFacts.setTabText_currentIndex. }
  assert (W1 : QTabWidget.widget (tabs st1) (QTabWidget.count (tabs st))
               = Some (next_obj st)).
  { rewrite QTabWidgetFacts.widget_fmap, P1.
    rewrite (proj2 (QTabWidgetFacts.validIndex_spec _ _)) by lia.
    unfold QTabWidget.count. rewrite Nat2Z.id.
    rewrite lookup_app_r by (rewrite length_fmap; lia).
    by rewrite length_fmap, Nat.sub_diag. }
  assert (V1 : current_valid st1) by (unfold current_valid; lia).
  destruct (close_tab_removed _ st1 _ ltac:(lia) W1) as (st2&R&P2&D2&_).
  exists st2. split; [exact R|]. split; [|split].
  - rewrite P2, P1. unfold QTabWidget.count. rewrite Nat2Z.id.
    rewrite <- (length_fmap fst (QTabWidget.pages (tabs st))). apply delete_snoc.
  - destruct (close_tab_closed _ st1 _ ltac:(lia) W1 V1) as [(Hc&_)|(_&_&b&_&R')].
    { lia. }
    rewrite R in R'. injection R' as ->. rewrite decide_True by lia.
    simpl. rewrite QTabWidgetFacts.setTabText_currentIndex. simpl. lia.
  - rewrite D2, E1. done.
Qed.

Lemma new_tab_then_close_selects_last_tab_witness :
  exists st2,
    close_tab 2 (state_of (new_tab_btn_clicked (run_events [NewTabClicked; TabSelected 0] startup)))
    = Return tt st2
    /\ QTabWidget.currentIndex (tabs st2) = 1.
Proof.
  set (st := run_events [NewTabClicked; TabSelected 0] startup).
  assert (C : QTabWidget.count (tabs st) = 2) by (vm_compute; reflexivity).
  assert (I : QTabWidget.currentIndex (tabs st) = 0) by (vm_compute; reflexivity).
  destruct (new_tab_then_close_selects_last_tab st) as (st2&R&_&I2&_).
  - unfold current_valid. rewrite C, I. lia.
  - rewrite C in R, I2. exists st2. split; [exact R | exact I2].
Defined.
